(** * The merge-queue commands of gastown ([internal/cmd/mq.go])

    A shallow embedding of the [gt mq] commands: the branch parser, the
    submission, listing, retry and reject commands, and the collaborators
    they drive.  Go strings are byte sequences and are modelled by [string]
    (a list of 8-bit [ascii]); Go [int] values are modelled by [Z] (no
    arithmetic is performed on them, so no wrap-around arises); a Go
    [error] is a value of the inductive type [error], and a function
    returning [(T, error)] returns a [result T]. *)

From Stdlib Require Import Ascii String ZArith DecimalString Lia.
From stdpp Require Import base option strings gmap list.

Open Scope string_scope.
Open Scope list_scope.
Open Scope Z_scope.

#[local] Arguments String.append !_ _ / : simpl nomatch.

(** ** Strings: the parts of Go's [strings] package the commands use *)

Module Strings.

(** [strings.HasPrefix(s, prefix)]. *)
Definition HasPrefix (s prefix : string) : bool := String.prefix prefix s.

(** The first occurrence of the one-byte separator [sep] in [s]: the text
    before it and the text after it ([strings.Index] followed by the two
    slicings [s[:m]] and [s[m+1:]] of [genSplit]). *)
Fixpoint cut (sep : ascii) (s : string) : option (string * string) :=
  match s with
  | EmptyString => None
  | String c s' =>
      if Ascii.eqb c sep then Some (EmptyString, s')
      else match cut sep s' with
           | Some (a, b) => Some (String c a, b)
           | None => None
           end
  end.

(** [strings.SplitN(s, sep, n)] for a one-byte separator and [n >= 0]:
    at most [n] substrings, the last one being the unsplit remainder;
    [n = 0] gives [nil]. *)
Fixpoint SplitN (s : string) (sep : ascii) (n : nat) : list string :=
  match n with
  | O => []
  | S O => [s]
  | S n' =>
      match cut sep s with
      | Some (a, b) => a :: SplitN b sep n'
      | None => [s]
      end
  end.

(** [strings.Split(s, sep)] for a one-byte separator: split at every
    occurrence. *)
Fixpoint Split (s : string) (sep : ascii) : list string :=
  match s with
  | EmptyString => [EmptyString]
  | String c s' =>
      if Ascii.eqb c sep then EmptyString :: Split s' sep
      else match Split s' sep with
           | l :: ls => String c l :: ls
           | [] => [String c EmptyString]
           end
  end.

(** [strings.Join(elems, sep)]. *)
Fixpoint Join (elems : list string) (sep : string) : string :=
  match elems with
  | [] => ""
  | [e] => e
  | e :: es => e +:+ sep +:+ Join es sep
  end.

(** Every byte of [s] satisfies [p]. *)
Fixpoint all (p : ascii -> bool) (s : string) : bool :=
  match s with
  | EmptyString => true
  | String c s' => p c && all p s'
  end.

End Strings.

(** ** Regular expressions: the fragment of Go's [regexp] the parser uses

    Go's [regexp] returns the leftmost match and, among the matches that
    start there, the one a backtracking search with greedy operators finds
    first.  [rmatch] is that search, written with a continuation for the
    rest of the pattern; it returns the text matched from the current
    position on. *)

Module Regexp.

Inductive regex : Type :=
| Lit (c : ascii)                  (* one literal byte *)
| Class (p : ascii -> bool)        (* one byte of a character class *)
| Plus (p : ascii -> bool)         (* [class+], greedy *)
| Seq (r1 r2 : regex)              (* concatenation *)
| Opt (r : regex).                 (* [(?:r)?], greedy *)

(** After one byte of the class has been consumed by [class+]: take
    further bytes while possible, giving one back at a time when the rest
    of the pattern fails. *)
Fixpoint more (p : ascii -> bool) (s : string)
    (k : string -> option string) : option string :=
  match s with
  | String c s' =>
      if p c then
        match more p s' k with
        | Some t => Some (String c t)
        | None => k s
        end
      else k s
  | EmptyString => k s
  end.

Fixpoint rmatch (r : regex) (s : string)
    (k : string -> option string) : option string :=
  match r with
  | Lit c =>
      match s with
      | String c' s' => if Ascii.eqb c' c then String c' <$> k s' else None
      | EmptyString => None
      end
  | Class p =>
      match s with
      | String c' s' => if p c' then String c' <$> k s' else None
      | EmptyString => None
      end
  | Plus p =>
      match s with
      | String c' s' => if p c' then String c' <$> more p s' k else None
      | EmptyString => None
      end
  | Seq r1 r2 => rmatch r1 s (fun s' => rmatch r2 s' k)
  | Opt r1 =>
      match rmatch r1 s k with
      | Some t => Some t
      | None => k s
      end
  end.

(** The match of [r] that starts at the first byte of [s], if any. *)
Definition match_here (r : regex) (s : string) : option string :=
  rmatch r s (fun _ => Some "").

(** The leftmost match of [r] in [s]. *)
Fixpoint find (r : regex) (s : string) : option string :=
  match match_here r s with
  | Some t => Some t
  | None =>
      match s with
      | EmptyString => None
      | String _ s' => find r s'
      end
  end.

(** [Regexp.FindStringSubmatch] for a pattern that is one capturing
    group around the whole expression: [nil] without a match, otherwise
    the match followed by the text of group 1, which is the match. *)
Definition FindStringSubmatch (r : regex) (s : string) : list string :=
  match find r s with
  | Some t => [t; t]
  | None => []
  end.

Definition lower (c : ascii) : bool := Ascii.leb "a" c && Ascii.leb c "z".
Definition digit (c : ascii) : bool := Ascii.leb "0" c && Ascii.leb c "9".
Definition lower_or_digit (c : ascii) : bool := lower c || digit c.

End Regexp.

(** ** The branch parser *)

(** [branchInfo] holds parsed branch information. *)
Record branchInfo : Type := mkBranchInfo {
  Branch : string;  (* full branch name *)
  Issue : string;   (* issue ID extracted from branch *)
  Worker : string   (* worker name (polecat name) *)
}.

(** The pattern [([a-z]+-[a-z0-9]+(?:\.[0-9]+)?)]. *)
Definition issuePattern : Regexp.regex :=
  Regexp.Seq (Regexp.Plus Regexp.lower)
    (Regexp.Seq (Regexp.Lit "-")
       (Regexp.Seq (Regexp.Plus Regexp.lower_or_digit)
          (Regexp.Opt (Regexp.Seq (Regexp.Lit ".") (Regexp.Plus Regexp.digit))))).

(** [parseBranchName] extracts issue ID and worker from a branch name. *)
Definition parseBranchName (branch : string) : branchInfo :=
  let info := mkBranchInfo branch "" "" in
  let fallback :=
    match Regexp.FindStringSubmatch issuePattern branch with
    | _ :: m1 :: _ => mkBranchInfo branch m1 (Worker info)
    | _ => info
    end in
  if Strings.HasPrefix branch "polecat/" then
    match Strings.SplitN branch "/" 3 with
    | [_; p1; p2] => mkBranchInfo branch p2 p1
    | _ => fallback
    end
  else fallback.

(** ** Errors and results *)

(** Go [error] values.  The two sentinels of the refinery package are
    compared by identity in the commands; [Wrapf] is
    [fmt.Errorf("<msg>: %w", cause)] and [Errorf] a [fmt.Errorf] without
    a wrapped cause; [External] is an error raised inside a collaborator. *)
Inductive error : Type :=
| ErrMRNotFound
| ErrMRNotFailed
| External (msg : string)
| Errorf (msg : string)
| Wrapf (msg : string) (cause : error).

Inductive result (A : Type) : Type :=
| Ok (a : A)
| Err (e : error).
Arguments Ok {A} a.
Arguments Err {A} e.

#[global] Instance result_ret : MRet result := fun A a => Ok a.
#[global] Instance result_bind : MBind result :=
  fun A B f m => match m with Ok a => f a | Err e => Err e end.

(** [if err != nil { return fmt.Errorf("<msg>: %w", err) }]. *)
Definition wrap {A : Type} (msg : string) (m : result A) : result A :=
  match m with
  | Ok a => Ok a
  | Err e => Err (Wrapf msg e)
  end.

Definition is_ok {A : Type} (m : result A) : bool :=
  match m with Ok _ => true | Err _ => false end.

(** [%d] of an [int]. *)
Definition itoa (n : Z) : string := NilZero.string_of_int (Z.to_int n).

(** ** The issue store ([internal/beads]) *)

Module beads.

(** [beads.Issue], with the fields the commands read.  The package is not
    part of the sources; the field names are those the commands use. *)
Record Issue : Type := mkIssue {
  ID : string;
  Title : string;
  Type_ : string;
  Status : string;
  Priority : Z;
  Description : string;
  BlockedBy : list string;
  BlockedByCount : Z;
  CreatedAt : string
}.

(** [beads.CreateOptions], as [runMqSubmit] fills it. *)
Record CreateOptions : Type := mkCreateOptions {
  co_Title : string;
  co_Type : string;
  co_Priority : Z;
  co_Description : string
}.

(** [beads.ListOptions], as [runMQList] fills it. *)
Record ListOptions : Type := mkListOptions {
  lo_Type : string;
  lo_Status : string
}.

(** [beads.MRFields], as [runMqSubmit] fills it. *)
Record MRFields : Type := mkMRFields {
  Branch : string;
  Target : string;
  SourceIssue : string;
  Worker : string;
  Rig : string
}.

(** The store as the commands see it: the methods of the wrapper made by
    [beads.New(dir)], each taking the directory and the backing state of
    type [S].  The implementation is not part of the sources, so the
    commands are stated over any implementation. *)
Record Beads (S : Type) : Type := mkBeads {
  Show : string -> S -> string -> result Issue;
  Create : string -> S -> CreateOptions -> result Issue * S;
  List : string -> S -> ListOptions -> result (list Issue);
  Ready : string -> S -> result (list Issue)
}.
Arguments Show {S} _ _ _ _.
Arguments Create {S} _ _ _ _.
Arguments List {S} _ _ _ _.
Arguments Ready {S} _ _ _.

(** Modelled from the spec: one encoded line [key: value] of the Field
    Codec, or nothing for an empty value. *)
Definition field_line (key value : string) : list string :=
  if String.eqb value "" then [] else [key +:+ ": " +:+ value].

(** Modelled from the spec: [beads.FormatMRFields], the Field Codec's
    Encode, is missing from the sources.  One [key: value] line per
    present field, in the order branch, target, source_issue, worker, rig,
    values verbatim, empty fields omitted. *)
Definition FormatMRFields (f : MRFields) : string :=
  Strings.Join
    (field_line "branch" (Branch f) ++ field_line "target" (Target f) ++
     field_line "source_issue" (SourceIssue f) ++
     field_line "worker" (Worker f) ++ field_line "rig" (Rig f))
    (String "010" "").

(** Modelled from the spec: the value of a [key: value] line for the
    given key, the text after [key: ] taken verbatim. *)
Definition line_value (key line : string) : option string :=
  let p := key +:+ ": " in
  if String.prefix p line
  then Some (String.substring (String.length p)
               (String.length line - String.length p) line)
  else None.

(** Modelled from the spec: one decoding step of the Field Codec.  A
    line of a recognised key sets that field, any other line is ignored. *)
Definition decode_line (f : MRFields) (line : string) : MRFields :=
  match line_value "branch" line with
  | Some v => mkMRFields v (Target f) (SourceIssue f) (Worker f) (Rig f)
  | None =>
  match line_value "target" line with
  | Some v => mkMRFields (Branch f) v (SourceIssue f) (Worker f) (Rig f)
  | None =>
  match line_value "source_issue" line with
  | Some v => mkMRFields (Branch f) (Target f) v (Worker f) (Rig f)
  | None =>
  match line_value "worker" line with
  | Some v => mkMRFields (Branch f) (Target f) (SourceIssue f) v (Rig f)
  | None =>
  match line_value "rig" line with
  | Some v => mkMRFields (Branch f) (Target f) (SourceIssue f) (Worker f) v
  | None => f
  end end end end end.

(** The type marker line, as [runMqSubmit] writes it. *)
Definition marker : string := "type: merge-request".

(** A value without a line feed, and a field set of such values. *)
Definition single_line (v : string) : bool :=
  Strings.all (fun c => negb (Ascii.eqb c "010")) v.

Definition single_line_fields (f : MRFields) : bool :=
  single_line (Branch f) && single_line (Target f) &&
  single_line (SourceIssue f) && single_line (Worker f) && single_line (Rig f).

(** The Field Codec's Encode as the submission uses it: the marker line,
    then the formatted fields. *)
Definition encode (f : MRFields) : string :=
  marker +:+ String "010" (FormatMRFields f).

(** Modelled from the spec: [beads.ParseMRFields], the Field Codec's
    Decode, is missing from the sources.  A pure function of the stored
    text: absent when no line is the type marker; otherwise the
    recognised keys are read line by line, unknown keys are ignored and a
    missing key leaves its field empty. *)
Definition ParseMRFields (issue : Issue) : option MRFields :=
  let lines := Strings.Split (Description issue) "010" in
  if existsb (String.eqb marker) lines
  then Some (fold_left decode_line lines (mkMRFields "" "" "" "" ""))
  else None.

End beads.

(** ** Rigs ([internal/rig]) *)

Module rig.

Record Rig : Type := mkRig { Path : string }.

(** Modelled from the spec: the polecat context template gives a worker's
    mail address as [<rig>/polecats/<name>]. *)
Definition worker_address (rigName worker : string) : string :=
  rigName +:+ "/polecats/" +:+ worker.

End rig.

(** ** The refinery manager ([internal/refinery]) *)

Module refinery.

(** Modelled from the spec: the stored status of a merge request, one of
    open, in_progress, closed and rejected. *)
Inductive MRStatus : Type := MROpen | MRInProgress | MRClosed | MRRejected.

(** The status as [%s] prints it. *)
Definition status_string (s : MRStatus) : string :=
  match s with
  | MROpen => "open"
  | MRInProgress => "in_progress"
  | MRClosed => "closed"
  | MRRejected => "rejected"
  end.

(** Modelled from the spec: [refinery.MergeRequest], missing from the
    sources, with the field names the commands use ([Branch], [Worker],
    [IssueID], [Status], [Error]).  It is stored under its identifier;
    [AuditTrail] holds the recorded rejection reasons. *)
Record MergeRequest : Type := mkMR {
  Branch : string;
  Target : string;
  IssueID : string;
  Worker : string;
  Rig : string;
  Priority : Z;
  Status : MRStatus;
  BlockedBy : list string;
  Error : string;
  CreatedAt : string;
  AuditTrail : list string
}.

(** Modelled from the spec: the arguments of the mail collaborator's
    [Send(address, subject, body)]. *)
Record Mail : Type := mkMail { To : string; Subject : string; Body : string }.

(** Modelled from the spec: what the manager reads and writes.  The
    merge requests by identifier, the status of the issues of the
    tracker, every mail dispatch attempted so far, and the failures
    reported apart from a command's result. *)
Record State : Type := mkState {
  mrs : gmap string MergeRequest;
  issues : gmap string string;
  sent : list Mail;
  reported : list error
}.

(** Storing a merge request under an identifier. *)
Definition set_mr (st : State) (id : string) (mr : MergeRequest) : State :=
  mkState (<[id := mr]> (mrs st)) (issues st) (sent st) (reported st).

(** Modelled from the spec: a previously-failed merge request has stored
    status open and a non-empty error. *)
Definition failed (mr : MergeRequest) : bool :=
  match Status mr with
  | MROpen => negb (String.eqb (Error mr) "")
  | _ => false
  end.

(** Modelled from the spec: [Manager.GetMR] is missing from the sources.
    [NotFound] if absent, otherwise the full record. *)
Definition GetMR (st : State) (id : string) : result MergeRequest :=
  match mrs st !! id with
  | Some mr => Ok mr
  | None => Err ErrMRNotFound
  end.

(** Modelled from the spec: the effect of a retry on the record, error
    cleared and status open. *)
Definition clear_error (mr : MergeRequest) : MergeRequest :=
  mkMR (Branch mr) (Target mr) (IssueID mr) (Worker mr) (Rig mr)
    (Priority mr) MROpen (BlockedBy mr) "" (CreatedAt mr) (AuditTrail mr).

(** Modelled from the spec: the effect of a rejection on the record,
    status rejected and the reason appended to the audit trail; the error
    field is not written. *)
Definition reject (reason : string) (mr : MergeRequest) : MergeRequest :=
  mkMR (Branch mr) (Target mr) (IssueID mr) (Worker mr) (Rig mr)
    (Priority mr) MRRejected (BlockedBy mr) (Error mr) (CreatedAt mr)
    (AuditTrail mr ++ [reason]).

(** Modelled from the spec: the resolution of [RejectMR]'s argument, by
    identifier, else by exact branch-name match. *)
Definition FindMR (st : State) (idOrBranch : string)
    : option (string * MergeRequest) :=
  match mrs st !! idOrBranch with
  | Some mr => Some (idOrBranch, mr)
  | None =>
      snd <$> list_find (fun p => Branch (snd p) = idOrBranch)
                (map_to_list (mrs st))
  end.

Section Manager.

(** The synchronous processing attempt of [Retry]'s now mode, a black box
    that reports its outcome. *)
Variable process : State -> string -> result unit * State.

(** The mail collaborator's [Send]: [None] when the dispatch succeeded. *)
Variable send : Mail -> option error.

(** Subject and body of a rejection notice. *)
Variable notice : MergeRequest -> string -> string * string.

(** Modelled from the spec: [Manager.Retry] is missing from the sources.
    [NotFound] if no such merge request exists, [NotFailed] unless its
    stored status is open with a non-empty error; on success the error is
    cleared and the status is open, and in now mode the merge request is
    processed at once and the outcome of that attempt is the result. *)
Definition Retry (st : State) (id : string) (now : bool)
    : result unit * State :=
  match mrs st !! id with
  | None => (Err ErrMRNotFound, st)
  | Some mr =>
      if failed mr then
        let st' := set_mr st id (clear_error mr) in
        if now then process st' id else (Ok tt, st')
      else (Err ErrMRNotFailed, st)
  end.

(** Modelled from the spec: [Manager.RejectMR] is missing from the
    sources.  [NotFound] without a match; otherwise the status becomes
    rejected and the reason joins the audit trail, the error field and the
    source issue are left alone, and with [notify] one notice is sent to
    the worker, a failed dispatch being reported apart. *)
Definition RejectMR (st : State) (idOrBranch reason : string) (notify : bool)
    : result MergeRequest * State :=
  match FindMR st idOrBranch with
  | None => (Err ErrMRNotFound, st)
  | Some (id, mr) =>
      let mr' := reject reason mr in
      let st1 := set_mr st id mr' in
      if notify then
        let m := mkMail (rig.worker_address (Rig mr) (Worker mr))
                   (fst (notice mr reason)) (snd (notice mr reason)) in
        let rep := match send m with
                   | Some e => reported st1 ++ [e]
                   | None => reported st1
                   end in
        (Ok mr', mkState (mrs st1) (issues st1) (sent st1 ++ [m]) rep)
      else (Ok mr', st1)
  end.

End Manager.

End refinery.

(** ** The commands ([internal/cmd/mq.go]) *)

(** Command flags. *)
Record SubmitFlags : Type := mkSubmitFlags {
  mqSubmitBranch : string;
  mqSubmitIssue : string;
  mqSubmitEpic : string;
  mqSubmitPriority : Z          (* default -1 *)
}.

Record ListFlags : Type := mkListFlags {
  mqListReady : bool;
  mqListStatus : string;
  mqListWorker : string;
  mqListEpic : string;
  mqListJSON : bool
}.

Record RetryFlags : Type := mkRetryFlags { mqRetryNow : bool }.

Record RejectFlags : Type := mkRejectFlags {
  mqRejectReason : string;
  mqRejectNotify : bool
}.

(** What the commands ask of the process environment and of the packages
    outside [mq.go]: workspace and rig discovery, the working directory,
    git, the refinery manager of a rig ([getRefineryManager], of which
    the rig is kept; the manager is the state the commands are run on),
    [formatMRAge], which reads the wall clock, and [strings.EqualFold],
    the comparison of two texts under Unicode case folding, which is left
    as it is in the library: the commands are stated for whatever it
    answers. *)
Record Env : Type := mkEnv {
  FindFromCwdOrError : result string;
  Getwd : result string;
  Rel : string -> string -> result string;
  GetRig : string -> string -> result rig.Rig;
  CurrentBranch : string -> result string;
  getRefineryManager : string -> result rig.Rig;
  formatMRAge : string -> string;
  EqualFold : string -> string -> bool
}.

(** What a command leaves behind: its error ([None] is exit status 0),
    the state of the collaborator it writes to, and the lines printed
    (terminal styling and glyphs left out). *)
Record outcome (S : Type) : Type := mkOutcome {
  failure : option error;
  state : S;
  stdout : list string
}.
Arguments mkOutcome {S} _ _ _.
Arguments failure {S} _.
Arguments state {S} _.
Arguments stdout {S} _.

(** [findCurrentRig] determines the current rig from the working
    directory. *)
Definition findCurrentRig (env : Env) (townRoot : string)
    : result (string * rig.Rig) :=
  cwd ← wrap "getting current directory" (Getwd env);
  relPath ← wrap "computing relative path" (Rel env townRoot cwd);
  match Strings.Split relPath "/" with
  | [] => Err (Errorf "not inside a rig directory")
  | rigName :: _ =>
      if String.eqb rigName "" || String.eqb rigName "."
      then Err (Errorf "not inside a rig directory")
      else
        r ← wrap ("rig '" +:+ rigName +:+ "' not found") (GetRig env townRoot rigName);
        Ok (rigName, r)
  end.

(** The display status of a listed issue (the loop body of [runMQList]). *)
Definition displayStatus (issue : beads.Issue) : string :=
  if String.eqb (beads.Status issue) "open" then
    if (0 <? length (beads.BlockedBy issue))%nat || (0 <? beads.BlockedByCount issue)
    then "blocked" else "ready"
  else beads.Status issue.

(** One printed line of the queue table. *)
Record Row : Type := mkRow {
  row_id : string;
  row_status : string;
  row_priority : string;
  row_branch : string;
  row_worker : string;
  row_age : string;
  row_waiting : option string
}.

Inductive ListOutput : Type :=
| OutJSON (issues : list beads.Issue)
| OutEmpty
| OutTable (rows : list Row).

Definition mqRow (env : Env) (issue : beads.Issue) : Row :=
  let fields := beads.ParseMRFields issue in
  let status := displayStatus issue in
  let branch := match fields with Some f => beads.Branch f | None => "" end in
  let worker := match fields with Some f => beads.Worker f | None => "" end in
  let branch :=
    if (30 <? String.length branch)%nat
    then String.substring 0 27 branch +:+ "..." else branch in
  let displayID :=
    if (12 <? String.length (beads.ID issue))%nat
    then String.substring 0 12 (beads.ID issue) else beads.ID issue in
  mkRow displayID status ("P" +:+ itoa (beads.Priority issue)) branch worker
    (formatMRAge env (beads.CreatedAt issue))
    (if String.eqb status "blocked"
     then head (beads.BlockedBy issue) else None).

(** The worker and epic filters of [runMQList]. *)
Definition mqListKeep (env : Env) (flags : ListFlags) (issue : beads.Issue) : bool :=
  let fields := beads.ParseMRFields issue in
  (if String.eqb (mqListWorker flags) "" then true
   else
     let worker := match fields with Some f => beads.Worker f | None => "" end in
     EqualFold env worker (mqListWorker flags))
  &&
  (if String.eqb (mqListEpic flags) "" then true
   else
     let target := match fields with Some f => beads.Target f | None => "" end in
     String.eqb target ("integration/" +:+ mqListEpic flags)).

(** The request built by [runMqSubmit] before it writes to the store. *)
Record SubmitRequest : Type := mkSubmitRequest {
  sr_cwd : string;
  sr_branch : string;
  sr_target : string;
  sr_issue : string;
  sr_worker : string;
  sr_rig : string;
  sr_opts : beads.CreateOptions
}.

Section Commands.

Context {S : Type}.
Variable bd : beads.Beads S.
Variable env : Env.

(** [runMqSubmit] up to and including the construction of [createOpts]:
    discovery, branch and issue resolution, validation, target and
    priority. *)
Definition mqSubmitRequest (flags : SubmitFlags) (st : S)
    : result SubmitRequest :=
  townRoot ← wrap "not in a Gas Town workspace" (FindFromCwdOrError env);
  '(rigName, _) ← findCurrentRig env townRoot;
  cwd ← wrap "getting current directory" (Getwd env);
  branch ← (if String.eqb (mqSubmitBranch flags) ""
            then wrap "getting current branch" (CurrentBranch env cwd)
            else Ok (mqSubmitBranch flags));
  if String.eqb branch "main" || String.eqb branch "master"
  then Err (Errorf "cannot submit main/master branch to merge queue")
  else
    let info := parseBranchName branch in
    let issueID :=
      if String.eqb (mqSubmitIssue flags) "" then Issue info
      else mqSubmitIssue flags in
    let worker := Worker info in
    if String.eqb issueID ""
    then Err (Errorf ("cannot determine source issue from branch '" +:+ branch
                      +:+ "'; use --issue to specify"))
    else
      let target :=
        if String.eqb (mqSubmitEpic flags) "" then "main"
        else "integration/" +:+ mqSubmitEpic flags in
      let priority :=
        if 0 <=? mqSubmitPriority flags then mqSubmitPriority flags
        else match beads.Show bd cwd st issueID with
             | Err _ => 2
             | Ok sourceIssue => beads.Priority sourceIssue
             end in
      let title := "Merge: " +:+ issueID in
      let mrFields := beads.mkMRFields branch target issueID worker rigName in
      let description :=
        "type: merge-request" +:+ String "010" (beads.FormatMRFields mrFields) in
      Ok (mkSubmitRequest cwd branch target issueID worker rigName
            (beads.mkCreateOptions title "task" priority description)).

(** [runMqSubmit]: build the request, create the issue, report. *)
Definition runMqSubmit (flags : SubmitFlags) (st : S) : outcome S :=
  match mqSubmitRequest flags st with
  | Err e => mkOutcome (Some e) st []
  | Ok r =>
      match beads.Create bd (sr_cwd r) st (sr_opts r) with
      | (Err e, st') => mkOutcome (Some (Wrapf "creating merge request" e)) st' []
      | (Ok issue, st') =>
          mkOutcome None st'
            (["Created merge request";
              "  MR ID: " +:+ beads.ID issue;
              "  Source: " +:+ sr_branch r;
              "  Target: " +:+ sr_target r;
              "  Issue: " +:+ sr_issue r] ++
             (if String.eqb (sr_worker r) "" then []
              else ["  Worker: " +:+ sr_worker r]) ++
             ["  Priority: P" +:+ itoa (beads.co_Priority (sr_opts r))])
      end
  end.

(** [runMQList]: query, filter, render.  The store is read only. *)
Definition runMQList (flags : ListFlags) (rigName : string) (st : S)
    : result ListOutput :=
  r ← getRefineryManager env rigName;
  let b := rig.Path r in
  let opts :=
    beads.mkListOptions "merge-request"
      (if negb (String.eqb (mqListStatus flags) "") then mqListStatus flags
       else if negb (mqListReady flags) then "open" else "") in
  issues ←
    (if mqListReady flags then
       allReady ← wrap "querying ready MRs" (beads.Ready bd b st);
       Ok (filter (fun issue => String.eqb (beads.Type_ issue) "merge-request" = true)
             allReady)
     else wrap "querying merge queue" (beads.List bd b st opts));
  let filtered := filter (fun issue => mqListKeep env flags issue = true) issues in
  if mqListJSON flags then Ok (OutJSON filtered)
  else
    match filtered with
    | [] => Ok OutEmpty
    | _ => Ok (OutTable (map (mqRow env) filtered))
    end.

End Commands.

Section ManagerCommands.

Variable env : Env.
Variable process : refinery.State -> string -> result unit * refinery.State.
Variable send : refinery.Mail -> option error.
Variable notice : refinery.MergeRequest -> string -> string * string.

(** [runMQRetry]. *)
Definition runMQRetry (flags : RetryFlags) (rigName mrID : string)
    (st : refinery.State) : outcome refinery.State :=
  match getRefineryManager env rigName with
  | Err e => mkOutcome (Some e) st []
  | Ok _ =>
      match refinery.GetMR st mrID with
      | Err ErrMRNotFound =>
          mkOutcome
            (Some (Errorf ("merge request '" +:+ mrID +:+ "' not found in rig '"
                           +:+ rigName +:+ "'"))) st []
      | Err e => mkOutcome (Some (Wrapf "getting merge request" e)) st []
      | Ok mr =>
          let out :=
            ["Retrying merge request: " +:+ mrID;
             "  Branch: " +:+ refinery.Branch mr;
             "  Worker: " +:+ refinery.Worker mr] ++
            (if String.eqb (refinery.Error mr) "" then []
             else ["  Previous error: " +:+ refinery.Error mr]) in
          match refinery.Retry process st mrID (mqRetryNow flags) with
          | (Err ErrMRNotFailed, st') =>
              mkOutcome
                (Some (Errorf ("merge request '" +:+ mrID
                               +:+ "' has not failed (status: "
                               +:+ refinery.status_string (refinery.Status mr)
                               +:+ ")"))) st' out
          | (Err e, st') =>
              mkOutcome (Some (Wrapf "retrying merge request" e)) st' out
          | (Ok _, st') =>
              mkOutcome None st'
                (out ++
                 (if mqRetryNow flags then ["Merge request processed"]
                  else ["Merge request queued for retry";
                        "  Will be processed on next refinery cycle"]))
          end
      end
  end.

(** [runMQReject]. *)
Definition runMQReject (flags : RejectFlags) (rigName mrIDOrBranch : string)
    (st : refinery.State) : outcome refinery.State :=
  match getRefineryManager env rigName with
  | Err e => mkOutcome (Some e) st []
  | Ok _ =>
      match refinery.RejectMR send notice st mrIDOrBranch
              (mqRejectReason flags) (mqRejectNotify flags) with
      | (Err e, st') => mkOutcome (Some (Wrapf "rejecting MR" e)) st' []
      | (Ok result, st') =>
          mkOutcome None st'
            (["Rejected: " +:+ refinery.Branch result;
              "  Worker: " +:+ refinery.Worker result;
              "  Reason: " +:+ mqRejectReason flags] ++
             (if String.eqb (refinery.IssueID result) "" then []
              else ["  Issue:  " +:+ refinery.IssueID result
                    +:+ " (not closed - work not done)"]) ++
             (if mqRejectNotify flags then ["  Worker notified via mail"]
              else []))
      end
  end.

End ManagerCommands.

(** ** An issue store in memory *)

Module memstore.

(** Modelled from the spec: the issue-tracker collaborator behind
    [beads.New(dir)] is missing from the sources.  Issues are kept in
    creation order; a created issue is stored with the title, type,
    priority and description it was created with, is open and has no
    blockers; [Show] fails on an unknown identifier; [List] filters by
    type and status where given; [Ready] returns the open issues without
    unresolved blockers. *)
Record Store : Type := mkStore {
  items : list beads.Issue;
  clock : string
}.

(** Modelled from the spec: [Show(id)], the issue or a failure. *)
Definition Show (dir : string) (st : Store) (id : string) : result beads.Issue :=
  match List.find (fun i => String.eqb (beads.ID i) id) (items st) with
  | Some i => Ok i
  | None => Err (External ("issue not found: " +:+ id))
  end.

(** Modelled from the spec: [Create(title, type, priority, description)]
    stores and returns a new open issue without blockers. *)
Definition Create (dir : string) (st : Store) (o : beads.CreateOptions)
    : result beads.Issue * Store :=
  let i :=
    beads.mkIssue ("gt-" +:+ itoa (Z.of_nat (length (items st)) + 1))
      (beads.co_Title o) (beads.co_Type o) "open" (beads.co_Priority o)
      (beads.co_Description o) [] 0 (clock st) in
  (Ok i, mkStore (items st ++ [i]) (clock st)).

(** Modelled from the spec: the filter of [List], by type and status
    where given. *)
Definition selected (o : beads.ListOptions) (i : beads.Issue) : bool :=
  (String.eqb (beads.lo_Type o) "" || String.eqb (beads.Type_ i) (beads.lo_Type o))
  && (String.eqb (beads.lo_Status o) "" || String.eqb (beads.Status i) (beads.lo_Status o)).

(** Modelled from the spec: [List(filter)]. *)
Definition List (dir : string) (st : Store) (o : beads.ListOptions)
    : result (list beads.Issue) :=
  Ok (List.filter (selected o) (items st)).

(** Modelled from the spec: an open issue with no unresolved blockers. *)
Definition unblocked (i : beads.Issue) : bool :=
  String.eqb (beads.Status i) "open"
  && (length (beads.BlockedBy i) =? 0)%nat && (beads.BlockedByCount i <=? 0).

(** Modelled from the spec: [Ready()]. *)
Definition Ready (dir : string) (st : Store) : result (list beads.Issue) :=
  Ok (List.filter unblocked (items st)).

(** The store in memory as an implementation of the wrapper. *)
Definition bd : beads.Beads Store := beads.mkBeads Store Show Create List Ready.

End memstore.

(** ** A sample town *)

Module sample.

Definition gastown : rig.Rig := rig.mkRig "/town/gastown".

(** The names of the sample town are ASCII, and on ASCII texts
    [strings.EqualFold] compares letters without case and every other
    byte exactly; [fold_ascii] is that comparison. *)
Definition lower_ascii (c : ascii) : ascii :=
  if Ascii.leb "A" c && Ascii.leb c "Z"
  then ascii_of_nat (nat_of_ascii c + 32) else c.

Fixpoint fold_ascii (s t : string) : bool :=
  match s, t with
  | EmptyString, EmptyString => true
  | String a s', String b t' =>
      Ascii.eqb (lower_ascii a) (lower_ascii b) && fold_ascii s' t'
  | _, _ => false
  end.

(** A polecat's checkout of the rig [gastown], on the branch
    [polecat/Toast/gt-42]. *)
Definition env : Env :=
  mkEnv (Ok "/town") (Ok "/town/gastown/polecats/Toast")
    (fun _ _ => Ok "gastown/polecats/Toast")
    (fun _ _ => Ok gastown)
    (fun _ => Ok "polecat/Toast/gt-42")
    (fun _ => Ok gastown)
    (fun _ => "0s")
    fold_ascii.

(** The same checkout on another branch. *)
Definition env_on (branch : string) : Env :=
  mkEnv (Ok "/town") (Ok "/town/gastown/polecats/Toast")
    (fun _ _ => Ok "gastown/polecats/Toast")
    (fun _ _ => Ok gastown)
    (fun _ => Ok branch)
    (fun _ => Ok gastown)
    (fun _ => "0s")
    fold_ascii.

(** [gt mq submit --epic gt-epic1]. *)
Definition submit_epic : SubmitFlags := mkSubmitFlags "" "" "gt-epic1" (-1).

(** [gt mq submit]. *)
Definition submit_plain : SubmitFlags := mkSubmitFlags "" "" "" (-1).

(** [gt mq list gastown --ready]. *)
Definition list_ready : ListFlags := mkListFlags true "" "" "" false.

(** [gt mq list gastown]. *)
Definition list_open : ListFlags := mkListFlags false "" "" "" false.

Definition empty_store : memstore.Store := memstore.mkStore [] "2025-01-01T00:00:00Z".

(** A store holding the source issue [gt-42], of priority 3. *)
Definition store_with_source : memstore.Store :=
  memstore.mkStore
    [beads.mkIssue "gt-42" "Fix the flux capacitor" "task" "in_progress" 3
       "" [] 0 "2024-12-31T00:00:00Z"]
    "2025-01-01T00:00:00Z".

(** An open issue of the native type [merge-request] for which the store
    reports a blocker count and no blocker list. *)
Definition counted_blocker : beads.Issue :=
  beads.mkIssue "gt-mr-003" "Merge: gt-def" "merge-request" "open" 1
    ("type: merge-request" +:+ String "010" "branch: polecat/Capable/gt-def")
    [] 1 "2025-01-01T00:00:00Z".

Definition store_with_mr : memstore.Store :=
  memstore.mkStore [counted_blocker] "2025-01-01T00:00:00Z".

Definition fields : beads.MRFields :=
  beads.mkMRFields "polecat/Toast/gt-42" "integration/gt-epic1" "gt-42" "Toast" "gastown".

(** A merge request that failed to merge, one that never failed, and the
    manager state holding both. *)
Definition failed_mr : refinery.MergeRequest :=
  refinery.mkMR "polecat/Toast/gt-42" "main" "gt-42" "Toast" "gastown" 2
    refinery.MROpen [] "merge conflict" "2025-01-01T00:00:00Z" [].

Definition fresh_mr : refinery.MergeRequest :=
  refinery.mkMR "polecat/Nux/gt-xyz" "main" "gt-xyz" "Nux" "gastown" 1
    refinery.MROpen [] "" "2025-01-01T00:00:00Z" [].

Definition manager : refinery.State :=
  refinery.mkState
    (<["gt-mr-1" := failed_mr]> (<["gt-mr-2" := fresh_mr]> ∅))
    (<["gt-42" := "in_progress"]> (<["gt-xyz" := "in_progress"]> ∅))
    [] [].

(** Collaborators: a processing attempt that changes nothing and reports
    success, a mail transport that is down, and a plain notice. *)
Definition process_ok (st : refinery.State) (id : string)
    : result unit * refinery.State := (Ok tt, st).

Definition send_down (m : refinery.Mail) : option error :=
  Some (External "mail transport unavailable").

Definition notice (mr : refinery.MergeRequest) (reason : string) : string * string :=
  ("Merge request rejected: " +:+ refinery.Branch mr, reason).

End sample.

(** ** Branch names: what the parser recognises *)

(** An issue-like token: one or more lowercase letters, a hyphen, one or
    more lowercase letters or digits, optionally a dot and digits. *)
Definition issue_token (t : string) : Prop :=
  exists l a o,
    t = l +:+ "-" +:+ a +:+ o /\
    l <> "" /\ Strings.all Regexp.lower l = true /\
    a <> "" /\ Strings.all Regexp.lower_or_digit a = true /\
    (o = "" \/ exists d, o = "." +:+ d /\ d <> "" /\ Strings.all Regexp.digit d = true).

Definition contains_token (s : string) : Prop :=
  exists pre t post, s = pre +:+ t +:+ post /\ issue_token t.

(** The form [polecat/<worker>/<issue>]. *)
Definition polecat_form (s : string) : Prop :=
  exists w i, s = "polecat/" +:+ w +:+ "/" +:+ i.

(** A lowercase letter, a hyphen and a lowercase letter or digit in a
    row, somewhere in [s]. *)
Fixpoint has_hyphen_triple (s : string) : bool :=
  match s with
  | String c1 ((String c2 (String c3 _)) as s') =>
      (Regexp.lower c1 && Ascii.eqb c2 "-" && Regexp.lower_or_digit c3)
      || has_hyphen_triple s'
  | _ => false
  end.

(** The first byte of [s] satisfies [p]. *)
Definition starts_with (p : ascii -> bool) (s : string) : bool :=
  match s with
  | String c _ => p c
  | EmptyString => false
  end.

(** The text after a match cannot extend it: no further letter or digit
    after a match without suffix, nor a dot and a digit; no further digit
    after a match with suffix. *)
Definition closed_match (o rest : string) : Prop :=
  (o = "" /\ starts_with Regexp.lower_or_digit rest = false /\
   (forall c r, rest = String "." (String c r) -> Regexp.digit c = false)) \/
  (exists d, o = "." +:+ d /\ d <> "" /\ Strings.all Regexp.digit d = true /\
             starts_with Regexp.digit rest = false).

(** ** The commands over any manager *)

(** The refinery manager as [runMQRetry] and [runMQReject] use it: the
    three methods they call, over a backing state of type [M]. *)
Record Manager (M : Type) : Type := mkManager {
  mgr_GetMR : M -> string -> result refinery.MergeRequest;
  mgr_Retry : M -> string -> bool -> result unit * M;
  mgr_RejectMR : M -> string -> string -> bool -> result refinery.MergeRequest * M
}.
Arguments mgr_GetMR {M} _ _ _.
Arguments mgr_Retry {M} _ _ _ _.
Arguments mgr_RejectMR {M} _ _ _ _ _.

(** [runMQRetry], for any manager. *)
Definition runMQRetry_on {M : Type} (mgr : Manager M) (env : Env)
    (flags : RetryFlags) (rigName mrID : string) (st : M) : outcome M :=
  match getRefineryManager env rigName with
  | Err e => mkOutcome (Some e) st []
  | Ok _ =>
      match mgr_GetMR mgr st mrID with
      | Err ErrMRNotFound =>
          mkOutcome
            (Some (Errorf ("merge request '" +:+ mrID +:+ "' not found in rig '"
                           +:+ rigName +:+ "'"))) st []
      | Err e => mkOutcome (Some (Wrapf "getting merge request" e)) st []
      | Ok mr =>
          let out :=
            ["Retrying merge request: " +:+ mrID;
             "  Branch: " +:+ refinery.Branch mr;
             "  Worker: " +:+ refinery.Worker mr] ++
            (if String.eqb (refinery.Error mr) "" then []
             else ["  Previous error: " +:+ refinery.Error mr]) in
          match mgr_Retry mgr st mrID (mqRetryNow flags) with
          | (Err ErrMRNotFailed, st') =>
              mkOutcome
                (Some (Errorf ("merge request '" +:+ mrID
                               +:+ "' has not failed (status: "
                               +:+ refinery.status_string (refinery.Status mr)
                               +:+ ")"))) st' out
          | (Err e, st') =>
              mkOutcome (Some (Wrapf "retrying merge request" e)) st' out
          | (Ok _, st') =>
              mkOutcome None st'
                (out ++
                 (if mqRetryNow flags then ["Merge request processed"]
                  else ["Merge request queued for retry";
                        "  Will be processed on next refinery cycle"]))
          end
      end
  end.

(** [runMQReject], for any manager. *)
Definition runMQReject_on {M : Type} (mgr : Manager M) (env : Env)
    (flags : RejectFlags) (rigName mrIDOrBranch : string) (st : M) : outcome M :=
  match getRefineryManager env rigName with
  | Err e => mkOutcome (Some e) st []
  | Ok _ =>
      match mgr_RejectMR mgr st mrIDOrBranch
              (mqRejectReason flags) (mqRejectNotify flags) with
      | (Err e, st') => mkOutcome (Some (Wrapf "rejecting MR" e)) st' []
      | (Ok result, st') =>
          mkOutcome None st'
            (["Rejected: " +:+ refinery.Branch result;
              "  Worker: " +:+ refinery.Worker result;
              "  Reason: " +:+ mqRejectReason flags] ++
             (if String.eqb (refinery.IssueID result) "" then []
              else ["  Issue:  " +:+ refinery.IssueID result
                    +:+ " (not closed - work not done)"]) ++
             (if mqRejectNotify flags then ["  Worker notified via mail"]
              else []))
      end
  end.

(** The manager modelled above, as an implementation. *)
Definition modelled_manager
    (process : refinery.State -> string -> result unit * refinery.State)
    (send : refinery.Mail -> option error)
    (notice : refinery.MergeRequest -> string -> string * string)
    : Manager refinery.State :=
  mkManager refinery.State refinery.GetMR (refinery.Retry process)
    (refinery.RejectMR send notice).

(** ** The query of the list view *)

(** The query stage of [runMQList]: the manager's rig, the list options
    and the ready or list query, before the worker and epic filters. *)
Definition mqListQuery {S : Type} (bd : beads.Beads S) (env : Env)
    (flags : ListFlags) (rigName : string) (st : S) : result (list beads.Issue) :=
  r ← getRefineryManager env rigName;
  let b := rig.Path r in
  let opts :=
    beads.mkListOptions "merge-request"
      (if negb (String.eqb (mqListStatus flags) "") then mqListStatus flags
       else if negb (mqListReady flags) then "open" else "") in
  if mqListReady flags then
    allReady ← wrap "querying ready MRs" (beads.Ready bd b st);
    Ok (filter (fun issue => String.eqb (beads.Type_ issue) "merge-request" = true)
          allReady)
  else wrap "querying merge queue" (beads.List bd b st opts).

(** The rendering stage of [runMQList]: JSON, the empty notice or the
    table. *)
Definition mqListRender (env : Env) (json : bool) (filtered : list beads.Issue)
    : ListOutput :=
  if json then OutJSON filtered
  else
    match filtered with
    | [] => OutEmpty
    | _ => OutTable (map (mqRow env) filtered)
    end.

(** A store whose [List] honours the type it is asked for. *)
Definition List_honours_type {S : Type} (bd : beads.Beads S) : Prop :=
  forall dir st o issues issue,
    beads.List bd dir st o = Ok issues ->
    beads.lo_Type o <> "" ->
    issue ∈ issues -> beads.Type_ issue = beads.lo_Type o.

(** * Properties *)

(** ** Strings *)

Section StringFacts.

Lemma append_assoc (a b c : string) : (a +:+ b) +:+ c = a +:+ b +:+ c.
Proof. induction a as [|x a IH]; simpl; [reflexivity | now rewrite IH]. Qed.

Lemma append_empty_r (a : string) : a +:+ "" = a.
Proof. induction a as [|x a IH]; simpl; [reflexivity | now rewrite IH]. Qed.

Lemma prefix_append (p s : string) :
  String.prefix p s = true -> exists r, s = p +:+ r.
Proof.
  revert s; induction p as [|a p IH]; intros s H.
  - exists s; reflexivity.
  - destruct s as [|b s]; simpl in H; [discriminate|].
    destruct (ascii_dec a b) as [->|]; [|discriminate].
    destruct (IH _ H) as [r ->]. exists r; reflexivity.
Qed.

Lemma prefix_append_true (p r : string) : String.prefix p (p +:+ r) = true.
Proof.
  induction p as [|a p IH]; simpl; [now destruct r|].
  destruct (ascii_dec a a); [assumption | congruence].
Qed.

Lemma cut_Some sep s a b :
  Strings.cut sep s = Some (a, b) ->
  s = a +:+ String sep b /\
  Strings.all (fun c => negb (Ascii.eqb c sep)) a = true.
Proof.
  revert a; induction s as [|c s IH]; intros a H; simpl in H; [discriminate|].
  destruct (Ascii.eqb c sep) eqn:E.
  - apply Ascii.eqb_eq in E; subst c. inversion H; subst. split; reflexivity.
  - destruct (Strings.cut sep s) as [[a' b']|]; [|discriminate].
    inversion H; subst. destruct (IH a' eq_refl) as [-> Hall].
    split; [reflexivity|]. simpl. now rewrite E, Hall.
Qed.

Lemma cut_append sep a b :
  Strings.all (fun c => negb (Ascii.eqb c sep)) a = true ->
  Strings.cut sep (a +:+ String sep b) = Some (a, b).
Proof.
  induction a as [|c a IH]; simpl; intros H.
  - now rewrite Ascii.eqb_refl.
  - apply andb_prop in H as [Hc Ha]. apply negb_true_iff in Hc.
    now rewrite Hc, (IH Ha).
Qed.

Lemma cut_None_append sep a b : Strings.cut sep (a +:+ String sep b) <> None.
Proof.
  induction a as [|c a IH]; simpl.
  - now rewrite Ascii.eqb_refl.
  - destruct (Ascii.eqb c sep); [discriminate|].
    destruct (Strings.cut sep (a +:+ String sep b)) as [[? ?]|]; [discriminate | contradiction].
Qed.

End StringFacts.

(** ** The branch parser *)

Section BranchParser.

(** With the prefix [polecat/] in place, the three-way split is decided
    by the first [/] of the remainder. *)
Lemma SplitN_polecat r :
  Strings.SplitN ("polecat/" +:+ r) "/" 3 =
  match Strings.cut "/" r with
  | Some (w, i) => ["polecat"; w; i]
  | None => ["polecat"; r]
  end.
Proof. simpl. destruct (Strings.cut "/" r) as [[w i]|]; reflexivity. Qed.

Lemma polecat_parts branch p0 p1 p2 :
  Strings.HasPrefix branch "polecat/" = true ->
  Strings.SplitN branch "/" 3 = [p0; p1; p2] ->
  p0 = "polecat" /\ branch = "polecat/" +:+ p1 +:+ "/" +:+ p2 /\
  Strings.all (fun c => negb (Ascii.eqb c "/")) p1 = true.
Proof.
  intros Hp Hs. apply prefix_append in Hp as [r ->].
  rewrite SplitN_polecat in Hs.
  destruct (Strings.cut "/" r) as [[w i]|] eqn:Hc; [|discriminate].
  inversion Hs; subst. apply cut_Some in Hc as [-> Hall]. auto.
Qed.

(** The parser takes its first rule exactly on the branches of the
    polecat form. *)
Lemma polecat_rule_taken branch :
  polecat_form branch ->
  Strings.HasPrefix branch "polecat/" = true /\
  exists p1 p2, Strings.SplitN branch "/" 3 = ["polecat"; p1; p2].
Proof.
  intros (w & i & ->). split.
  - apply (prefix_append_true "polecat/").
  - change ("polecat/" +:+ w +:+ "/" +:+ i) with ("polecat/" +:+ (w +:+ String "/" i)).
    rewrite SplitN_polecat.
    destruct (Strings.cut "/" (w +:+ String "/" i)) as [[w' i']|] eqn:Hc.
    + eauto.
    + now apply cut_None_append in Hc.
Qed.

(** ** The fallback pattern finds every issue-like token *)

Lemma more_total p k :
  (forall s, is_Some (k s)) -> forall s, is_Some (Regexp.more p s k).
Proof.
  intros Hk s; induction s as [|c s IH]; simpl; [apply Hk|].
  destruct (p c); [|apply Hk].
  destruct IH as [t ->]; eauto.
Qed.

Lemma more_run p k s1 s2 :
  Strings.all p s1 = true -> is_Some (k s2) ->
  is_Some (Regexp.more p (s1 +:+ s2) k).
Proof.
  intros Hall Hk; induction s1 as [|c s1 IH]; simpl.
  - destruct s2 as [|c s2]; [assumption|].
    simpl. destruct (p c); [|assumption].
    destruct (Regexp.more p s2 k); [eauto | assumption].
  - simpl in Hall. apply andb_prop in Hall as [-> Hall].
    destruct (IH Hall) as [t ->]; eauto.
Qed.

Lemma plus_run p k s1 s2 :
  s1 <> "" -> Strings.all p s1 = true -> is_Some (k s2) ->
  is_Some (Regexp.rmatch (Regexp.Plus p) (s1 +:+ s2) k).
Proof.
  intros Hne Hall Hk. destruct s1 as [|c s1]; [congruence|].
  simpl in *. apply andb_prop in Hall as [-> Hall].
  destruct (more_run p k s1 s2 Hall Hk) as [t ->]. simpl; eauto.
Qed.

Lemma plus_total p k c s :
  p c = true -> (forall s, is_Some (k s)) ->
  is_Some (Regexp.rmatch (Regexp.Plus p) (String c s) k).
Proof.
  intros Hc Hk. simpl. rewrite Hc.
  destruct (more_total p k Hk s) as [t ->]. simpl; eauto.
Qed.

Lemma opt_total r k s :
  (forall s, is_Some (k s)) -> is_Some (Regexp.rmatch (Regexp.Opt r) s k).
Proof.
  intros Hk. simpl. destruct (Regexp.rmatch r s k); [eauto | apply Hk].
Qed.

Lemma rmatch_seq r1 r2 s k :
  Regexp.rmatch (Regexp.Seq r1 r2) s k =
  Regexp.rmatch r1 s (fun s' => Regexp.rmatch r2 s' k).
Proof. reflexivity. Qed.

Lemma lit_step c s k :
  is_Some (k s) -> is_Some (Regexp.rmatch (Regexp.Lit c) (String c s) k).
Proof. intros [t Ht]. simpl. rewrite Ascii.eqb_refl, Ht. simpl; eauto. Qed.

(** At the first byte of a token the pattern matches, whatever follows
    the hyphen and its first letter or digit. *)
Lemma match_here_token l a rest :
  l <> "" -> Strings.all Regexp.lower l = true ->
  a <> "" -> Strings.all Regexp.lower_or_digit a = true ->
  is_Some (Regexp.match_here issuePattern (l +:+ "-" +:+ a +:+ rest)).
Proof.
  intros Hl Hlall Ha Haall. unfold Regexp.match_here, issuePattern.
  rewrite rmatch_seq. apply plus_run; [assumption..|].
  rewrite rmatch_seq. apply (lit_step "-").
  rewrite rmatch_seq.
  destruct a as [|c a]; [congruence|].
  apply andb_prop in Haall as [Hc _].
  apply (plus_total Regexp.lower_or_digit); [assumption|].
  intros s. apply opt_total. eauto.
Qed.

Lemma find_here r s : is_Some (Regexp.match_here r s) -> is_Some (Regexp.find r s).
Proof. intros [t H]. destruct s; simpl; rewrite H; eauto. Qed.

Lemma find_later r pre s : is_Some (Regexp.find r s) -> is_Some (Regexp.find r (pre +:+ s)).
Proof.
  intros H; induction pre as [|c pre IH]; [assumption|].
  simpl. destruct (Regexp.match_here r (String c (pre +:+ s))); [eauto | assumption].
Qed.

Lemma find_token s : contains_token s -> is_Some (Regexp.find issuePattern s).
Proof.
  intros (pre & t & post & -> & l & a & o & -> & Hl & Hlall & Ha & Haall & _).
  apply find_later, find_here.
  rewrite !append_assoc. apply match_here_token; assumption.
Qed.

(** ** The fallback pattern finds nothing but issue-like tokens *)

Lemma more_inv p k s t :
  Regexp.more p s k = Some t ->
  exists s1 s2 t2,
    s = s1 +:+ s2 /\ Strings.all p s1 = true /\ k s2 = Some t2 /\ t = s1 +:+ t2.
Proof.
  revert t; induction s as [|c s IH]; intros t H; simpl in H.
  - exists "", "", t; auto.
  - destruct (p c) eqn:Hc; [|exists "", (String c s), t; auto].
    destruct (Regexp.more p s k) as [u|] eqn:Hm.
    + inversion H; subst.
      destruct (IH u eq_refl) as (s1 & s2 & t2 & -> & Hall & Hk & ->).
      exists (String c s1), s2, t2. simpl. rewrite Hc, Hall. auto.
    + exists "", (String c s), t; auto.
Qed.

Lemma plus_inv p k s t :
  Regexp.rmatch (Regexp.Plus p) s k = Some t ->
  exists s1 s2 t2,
    s = s1 +:+ s2 /\ s1 <> "" /\ Strings.all p s1 = true /\
    k s2 = Some t2 /\ t = s1 +:+ t2.
Proof.
  intros H. destruct s as [|c s]; simpl in H; [discriminate|].
  destruct (p c) eqn:Hc; [|discriminate].
  destruct (Regexp.more p s k) as [u|] eqn:Hm; [|discriminate].
  inversion H; subst.
  apply more_inv in Hm as (s1 & s2 & t2 & -> & Hall & Hk & ->).
  exists (String c s1), s2, t2. simpl. rewrite Hc, Hall. auto.
Qed.

Lemma lit_inv c k s t :
  Regexp.rmatch (Regexp.Lit c) s k = Some t ->
  exists s2 t2, s = String c s2 /\ k s2 = Some t2 /\ t = String c t2.
Proof.
  intros H. destruct s as [|c' s]; simpl in H; [discriminate|].
  destruct (Ascii.eqb c' c) eqn:E; [|discriminate].
  apply Ascii.eqb_eq in E; subst c'.
  destruct (k s) as [u|] eqn:Hk; [|discriminate].
  inversion H; subst. eauto.
Qed.

Lemma match_here_inv s t :
  Regexp.match_here issuePattern s = Some t ->
  exists post, s = t +:+ post /\ issue_token t.
Proof.
  unfold Regexp.match_here, issuePattern. rewrite rmatch_seq. intros H.
  apply plus_inv in H as (l & s2 & t2 & -> & Hl & Hlall & H & ->).
  rewrite rmatch_seq in H.
  apply lit_inv in H as (s3 & t3 & -> & H & ->).
  rewrite rmatch_seq in H.
  apply plus_inv in H as (a & s4 & t4 & -> & Ha & Haall & H & ->).
  cbn [Regexp.rmatch] in H.
  match type of H with
  | match ?m with _ => _ end = _ => destruct m as [u|] eqn:Hopt
  end.
  - inversion H; subst u. clear H.
    change (Regexp.rmatch (Regexp.Lit ".") s4
              (fun s' => Regexp.rmatch (Regexp.Plus Regexp.digit) s' (fun _ => Some ""))
            = Some t4) in Hopt.
    apply lit_inv in Hopt as (s5 & t5 & -> & H & ->).
    apply plus_inv in H as (d & s6 & t6 & -> & Hd & Hdall & H & ->).
    inversion H; subst t6. rewrite append_empty_r.
    exists s6. split.
    + change (String "." (d +:+ s6)) with ("." +:+ d +:+ s6).
      change (String "-" (a +:+ "." +:+ d +:+ s6)) with ("-" +:+ a +:+ "." +:+ d +:+ s6).
      change (String "-" (a +:+ String "." d)) with ("-" +:+ a +:+ "." +:+ d).
      now rewrite !append_assoc.
    + exists l, a, ("." +:+ d). repeat split; try assumption.
      right. exists d. auto.
  - inversion H; subst t4. rewrite append_empty_r.
    exists s4. split.
    + change (String "-" (a +:+ s4)) with ("-" +:+ a +:+ s4).
      change (String "-" a) with ("-" +:+ a).
      now rewrite !append_assoc.
    + exists l, a, "". rewrite append_empty_r. repeat split; auto.
Qed.

Lemma find_inv s t :
  Regexp.find issuePattern s = Some t ->
  exists pre post, s = pre +:+ t +:+ post /\ issue_token t.
Proof.
  induction s as [|c s IH]; intros H.
  - discriminate H.
  - cbn [Regexp.find] in H.
    destruct (Regexp.match_here issuePattern (String c s)) as [u|] eqn:Hm.
    + inversion H; subst u. apply match_here_inv in Hm as (post & Hs & Ht).
      exists "", post. auto.
    + destruct (IH H) as (pre & post & -> & Ht).
      exists (String c pre), post. auto.
Qed.

Lemma find_None_iff s :
  Regexp.find issuePattern s = None <-> ~ contains_token s.
Proof.
  split.
  - intros H Hc. apply find_token in Hc as [t Ht]. congruence.
  - intros H. destruct (Regexp.find issuePattern s) as [t|] eqn:Hf; [|reflexivity].
    exfalso. apply H. apply find_inv in Hf as (pre & post & -> & Ht).
    exists pre, t, post. auto.
Qed.

(** A token shows as a lowercase letter, a hyphen and a lowercase letter
    or digit in a row. *)
Lemma has_hyphen_triple_tail c s :
  has_hyphen_triple s = true -> has_hyphen_triple (String c s) = true.
Proof.
  destruct s as [|c2 [|c3 s]]; simpl; try discriminate.
  intros ->. apply orb_true_r.
Qed.

Lemma has_hyphen_triple_later pre s :
  has_hyphen_triple s = true -> has_hyphen_triple (pre +:+ s) = true.
Proof.
  intros H; induction pre as [|c pre IH]; [assumption|].
  change (String c pre +:+ s) with (String c (pre +:+ s)).
  now apply has_hyphen_triple_tail.
Qed.

Lemma token_hyphen_triple s : contains_token s -> has_hyphen_triple s = true.
Proof.
  intros (pre & t & post & -> & l & a & o & -> & Hl & Hlall & Ha & Haall & _).
  apply has_hyphen_triple_later.
  destruct a as [|c3 a]; [congruence|].
  apply andb_prop in Haall as [Hc3 _].
  induction l as [|c l IH]; [congruence|].
  apply andb_prop in Hlall as [Hc Hlall].
  destruct l as [|c' l].
  - simpl. now rewrite Hc, Hc3.
  - change ((String c (String c' l) +:+ "-" +:+ String c3 a +:+ o) +:+ post)
      with (String c ((String c' l +:+ "-" +:+ String c3 a +:+ o) +:+ post)).
    apply has_hyphen_triple_tail, IH; [congruence | assumption].
Qed.

End BranchParser.

(** C2, as stated, fails: the claim's example branch
    [feature/random-name] does contain an issue-like token,
    [random-name], so its issue is not empty. *)
Lemma parseBranchName_feature_random_name_issue :
  ~ (Worker (parseBranchName "feature/random-name") = "" /\
     Issue (parseBranchName "feature/random-name") = "").
Proof. intros [_ H]. vm_compute in H. discriminate H. Qed.

(** C2 (amended).  [parseBranchName] is a total function; on a branch
    that neither has the form [polecat/<worker>/<issue>] nor contains an
    issue-like token it returns an empty worker and an empty issue.  The
    branch [feature/random-name] does contain such a token and is parsed
    to worker [""] and issue ["random-name"]. *)
Theorem parseBranchName_no_token (branch : string) :
  ~ polecat_form branch ->
  ~ contains_token branch ->
  parseBranchName branch = mkBranchInfo branch "" "" /\
  contains_token "feature/random-name" /\
  parseBranchName "feature/random-name" =
    mkBranchInfo "feature/random-name" "random-name" "".
Proof.
  intros Hform Htok. split; [|split; [|reflexivity]].
  - apply find_None_iff in Htok.
    assert (Hfb : match Regexp.FindStringSubmatch issuePattern branch with
                  | _ :: m1 :: _ => mkBranchInfo branch m1 ""
                  | _ => mkBranchInfo branch "" ""
                  end = mkBranchInfo branch "" "").
    { unfold Regexp.FindStringSubmatch. now rewrite Htok. }
    unfold parseBranchName. cbn [Worker].
    destruct (Strings.HasPrefix branch "polecat/") eqn:Hp; [|exact Hfb].
    destruct (Strings.SplitN branch "/" 3) as [|p0 [|p1 [|p2 [|p3 ps]]]] eqn:Hs;
      try exact Hfb.
    exfalso. apply Hform.
    destruct (polecat_parts _ _ _ _ Hp Hs) as (_ & -> & _). now exists p1, p2.
  - exists "feature/", "random-name", "".
    split; [reflexivity|]. exists "random", "name", "".
    repeat split; try reflexivity; try discriminate. now left.
Qed.

Lemma parseBranchName_no_token_witness :
  parseBranchName "feature/Random_Name" = mkBranchInfo "feature/Random_Name" "" "" /\
  contains_token "feature/random-name" /\
  parseBranchName "feature/random-name" =
    mkBranchInfo "feature/random-name" "random-name" "".
Proof.
  apply (parseBranchName_no_token "feature/Random_Name").
  - intros (w & i & H). discriminate H.
  - intros H. apply token_hyphen_triple in H. discriminate H.
Defined.

(** C3.  On a branch that starts with [polecat/] and that [SplitN] cuts
    at [/] into exactly three parts, [parseBranchName] returns the second
    part as worker and the third as issue; the branch is then
    [polecat/<second>/<third>] with no [/] in the second part, the third
    part may contain [/], and the fallback pattern plays no role:
    [polecat/Nux/gt-xyz] gives worker [Nux] and issue [gt-xyz], and
    [polecat/Nux/docs/gt-12] gives issue [docs/gt-12], not [gt-12]. *)
Theorem parseBranchName_polecat (branch p0 p1 p2 : string) :
  Strings.HasPrefix branch "polecat/" = true ->
  Strings.SplitN branch "/" 3 = [p0; p1; p2] ->
  parseBranchName branch = mkBranchInfo branch p2 p1 /\
  branch = "polecat/" +:+ p1 +:+ "/" +:+ p2 /\
  Strings.all (fun c => negb (Ascii.eqb c "/")) p1 = true /\
  parseBranchName "polecat/Nux/gt-xyz" =
    mkBranchInfo "polecat/Nux/gt-xyz" "gt-xyz" "Nux" /\
  parseBranchName "polecat/Nux/docs/gt-12" =
    mkBranchInfo "polecat/Nux/docs/gt-12" "docs/gt-12" "Nux".
Proof.
  intros Hp Hs. split; [|split; [|split; [|split; reflexivity]]].
  - unfold parseBranchName. now rewrite Hp, Hs.
  - now destruct (polecat_parts _ _ _ _ Hp Hs) as (_ & ? & _).
  - now destruct (polecat_parts _ _ _ _ Hp Hs) as (_ & _ & ?).
Qed.

Lemma parseBranchName_polecat_witness :
  parseBranchName "polecat/Toast/gt-42" =
    mkBranchInfo "polecat/Toast/gt-42" "gt-42" "Toast".
Proof.
  apply (parseBranchName_polecat "polecat/Toast/gt-42" "polecat" "Toast" "gt-42");
    reflexivity.
Defined.

(** Every branch of the polecat form is parsed by the first rule. *)
Lemma parseBranchName_polecat_form (w i : string) :
  Strings.all (fun c => negb (Ascii.eqb c "/")) w = true ->
  parseBranchName ("polecat/" +:+ w +:+ "/" +:+ i) =
    mkBranchInfo ("polecat/" +:+ w +:+ "/" +:+ i) i w.
Proof.
  intros Hw. unfold parseBranchName.
  destruct (polecat_rule_taken ("polecat/" +:+ w +:+ "/" +:+ i)) as [Hp _];
    [now exists w, i|].
  rewrite Hp.
  change ("polecat/" +:+ w +:+ "/" +:+ i) with ("polecat/" +:+ (w +:+ String "/" i)).
  now rewrite SplitN_polecat, (cut_append _ _ _ Hw).
Qed.

(** ** Submission *)

Section Submission.

Context {S : Type}.
Variable bd : beads.Beads S.
Variable env : Env.

(** A wrapped result is a success only if the result is. *)
Lemma wrap_Ok {A : Type} msg (m : result A) a : wrap msg m = Ok a -> m = Ok a.
Proof. destruct m; simpl; congruence. Qed.

(** What a request that passed validation is made of. *)
Lemma mqSubmitRequest_inv flags st r :
  mqSubmitRequest bd env flags st = Ok r ->
  exists townRoot rigName rg cwd branch,
    FindFromCwdOrError env = Ok townRoot /\
    findCurrentRig env townRoot = Ok (rigName, rg) /\
    Getwd env = Ok cwd /\
    ((mqSubmitBranch flags = branch /\ branch <> "") \/
     (mqSubmitBranch flags = "" /\ CurrentBranch env cwd = Ok branch)) /\
    branch <> "main" /\ branch <> "master" /\
    let issueID :=
      if String.eqb (mqSubmitIssue flags) "" then Issue (parseBranchName branch)
      else mqSubmitIssue flags in
    let target :=
      if String.eqb (mqSubmitEpic flags) "" then "main"
      else "integration/" +:+ mqSubmitEpic flags in
    let worker := Worker (parseBranchName branch) in
    issueID <> "" /\
    r = mkSubmitRequest cwd branch target issueID worker rigName
          (beads.mkCreateOptions ("Merge: " +:+ issueID) "task"
             (if 0 <=? mqSubmitPriority flags then mqSubmitPriority flags
              else match beads.Show bd cwd st issueID with
                   | Err _ => 2
                   | Ok sourceIssue => beads.Priority sourceIssue
                   end)
             ("type: merge-request" +:+
              String "010" (beads.FormatMRFields
                              (beads.mkMRFields branch target issueID worker rigName)))).
Proof.
  unfold mqSubmitRequest. intros H.
  destruct (FindFromCwdOrError env) as [townRoot|e] eqn:Htown; [|discriminate H].
  cbn [wrap mbind result_bind] in H.
  destruct (findCurrentRig env townRoot) as [[rigName rg]|e] eqn:Hrig; [|discriminate H].
  cbn [mbind result_bind] in H.
  destruct (Getwd env) as [cwd|e] eqn:Hcwd; [|discriminate H].
  cbn [wrap mbind result_bind] in H.
  match type of H with
  | context [result_bind _ _ _ ?m] => destruct m as [branch|e] eqn:Hbranch
  | context [mbind _ ?m] => destruct m as [branch|e] eqn:Hbranch
  end; [|discriminate H].
  cbn [mbind result_bind] in H.
  destruct (String.eqb branch "main" || String.eqb branch "master") eqn:Hmain;
    [discriminate H|].
  apply orb_false_elim in Hmain as [Hmain Hmaster].
  apply String.eqb_neq in Hmain, Hmaster.
  match type of H with
  | (if String.eqb ?i "" then _ else _) = _ => destruct (String.eqb i "") eqn:Hissue
  end; [discriminate H|].
  apply String.eqb_neq in Hissue.
  exists townRoot, rigName, rg, cwd, branch.
  do 3 (split; [first [reflexivity | assumption]|]).
  split; [|split; [exact Hmain|split; [exact Hmaster|]]].
  - destruct (String.eqb (mqSubmitBranch flags) "") eqn:Hflag.
    + right. apply String.eqb_eq in Hflag. split; [assumption|].
      now apply wrap_Ok in Hbranch.
    + left. apply String.eqb_neq in Hflag. inversion Hbranch; subst. auto.
  - cbv zeta. split; [exact Hissue|]. now inversion H.
Qed.

(** A request that fails validation or discovery writes nothing. *)
Lemma runMqSubmit_rejected flags st e :
  mqSubmitRequest bd env flags st = Err e ->
  runMqSubmit bd env flags st = mkOutcome (Some e) st [].
Proof. unfold runMqSubmit. now intros ->. Qed.

(** A request that passes is handed to [Create], once, and the command
    succeeds exactly when [Create] does. *)
Lemma runMqSubmit_creates flags st r :
  mqSubmitRequest bd env flags st = Ok r ->
  state (runMqSubmit bd env flags st) = snd (beads.Create bd (sr_cwd r) st (sr_opts r)) /\
  (failure (runMqSubmit bd env flags st) = None <->
   is_ok (fst (beads.Create bd (sr_cwd r) st (sr_opts r))) = true).
Proof.
  unfold runMqSubmit. intros ->.
  destruct (beads.Create bd (sr_cwd r) st (sr_opts r)) as [[issue|e] st']; simpl;
    split; try reflexivity; split; congruence.
Qed.

(** Whatever the environment, a submission of [--branch main] or
    [--branch master] fails and writes nothing. *)
Lemma runMqSubmit_protected_flag flags st :
  mqSubmitBranch flags = "main" \/ mqSubmitBranch flags = "master" ->
  failure (runMqSubmit bd env flags st) <> None /\
  state (runMqSubmit bd env flags st) = st.
Proof.
  intros Hflag.
  destruct (mqSubmitRequest bd env flags st) as [r|e] eqn:H.
  - exfalso.
    apply mqSubmitRequest_inv in H
      as (townRoot & rigName & rg & cwd & branch & _ & _ & _ & Hb & Hmain & Hmaster & _).
    destruct Hb as [[Hb _]|[Hb _]]; destruct Hflag as [Hf|Hf];
      rewrite Hf in Hb; congruence.
  - rewrite (runMqSubmit_rejected flags st e H). split; [discriminate | reflexivity].
Qed.

End Submission.

(** C5.  A submission without a priority override ([--priority] left
    negative) creates its merge request with the priority of the source
    issue when [Show] finds it and with priority 2 when [Show] fails; a
    submission with [--priority p], [p >= 0], creates it with priority
    [p].  The request is what the command hands to [Create]. *)
Theorem submit_priority {S : Type} (bd : beads.Beads S) (env : Env)
    (flags : SubmitFlags) (st : S) (r : SubmitRequest) :
  mqSubmitRequest bd env flags st = Ok r ->
  (0 <= mqSubmitPriority flags ->
   beads.co_Priority (sr_opts r) = mqSubmitPriority flags) /\
  (mqSubmitPriority flags < 0 ->
   forall sourceIssue,
     beads.Show bd (sr_cwd r) st (sr_issue r) = Ok sourceIssue ->
     beads.co_Priority (sr_opts r) = beads.Priority sourceIssue) /\
  (mqSubmitPriority flags < 0 ->
   forall e,
     beads.Show bd (sr_cwd r) st (sr_issue r) = Err e ->
     beads.co_Priority (sr_opts r) = 2) /\
  state (runMqSubmit bd env flags st) =
    snd (beads.Create bd (sr_cwd r) st (sr_opts r)) /\
  (failure (runMqSubmit bd env flags st) = None <->
   is_ok (fst (beads.Create bd (sr_cwd r) st (sr_opts r))) = true).
Proof.
  intros H. pose proof (runMqSubmit_creates bd env flags st r H) as [Hst Hok].
  apply mqSubmitRequest_inv in H
    as (townRoot & rigName & rg & cwd & branch & _ & _ & _ & _ & _ & _ & _ & ->).
  cbn [sr_opts sr_cwd sr_issue beads.co_Priority] in *.
  repeat split; try assumption; try apply Hok.
  - intros Hp. apply Z.leb_le in Hp. now rewrite Hp.
  - intros Hp src Hshow. apply Z.leb_gt in Hp. now rewrite Hp, Hshow.
  - intros Hp e Hshow. apply Z.leb_gt in Hp. now rewrite Hp, Hshow.
Qed.

Lemma submit_priority_witness :
  (forall sourceIssue,
     memstore.Show "/town/gastown/polecats/Toast" sample.store_with_source "gt-42"
       = Ok sourceIssue ->
     3 = beads.Priority sourceIssue) /\
  List.map beads.Priority
    (memstore.items
       (state (runMqSubmit memstore.bd sample.env sample.submit_plain
                 sample.store_with_source))) = [3; 3].
Proof.
  split; [|reflexivity].
  refine (proj1 (proj2
    (submit_priority memstore.bd sample.env sample.submit_plain
       sample.store_with_source _ eq_refl)) _).
  reflexivity.
Defined.

(** C7.  Once the workspace, the rig and the working directory are
    found and the branch is known, given by [--branch] or detected by
    git: a branch [main] or [master] makes [mq submit] fail with the
    protected-branch error, and a branch from which no issue is parsed,
    without [--issue], makes it fail with the missing-issue error; in both
    cases the store is left as it was and nothing is printed. *)
Theorem submit_validation {S : Type} (bd : beads.Beads S) (env : Env)
    (flags : SubmitFlags) (st : S) (townRoot rigName cwd branch : string)
    (rg : rig.Rig) :
  FindFromCwdOrError env = Ok townRoot ->
  findCurrentRig env townRoot = Ok (rigName, rg) ->
  Getwd env = Ok cwd ->
  (mqSubmitBranch flags = branch /\ branch <> "") \/
  (mqSubmitBranch flags = "" /\ CurrentBranch env cwd = Ok branch) ->
  (branch = "main" \/ branch = "master" ->
   runMqSubmit bd env flags st =
     mkOutcome (Some (Errorf "cannot submit main/master branch to merge queue")) st []) /\
  (branch <> "main" -> branch <> "master" ->
   mqSubmitIssue flags = "" -> Issue (parseBranchName branch) = "" ->
   runMqSubmit bd env flags st =
     mkOutcome
       (Some (Errorf ("cannot determine source issue from branch '" +:+ branch
                      +:+ "'; use --issue to specify"))) st []).
Proof.
  intros Htown Hrig Hcwd Hbranch.
  assert (Hb : (if String.eqb (mqSubmitBranch flags) ""
                then wrap "getting current branch" (CurrentBranch env cwd)
                else Ok (mqSubmitBranch flags)) = Ok branch).
  { destruct Hbranch as [[Hf Hne]|[Hf Hcur]].
    - apply String.eqb_neq in Hne. now rewrite Hf, Hne.
    - now rewrite Hf, Hcur. }
  split.
  - intros Hmain. apply runMqSubmit_rejected. unfold mqSubmitRequest.
    rewrite Htown. cbn [wrap mbind result_bind]. rewrite Hrig.
    cbn [mbind result_bind]. rewrite Hcwd. cbn [wrap mbind result_bind].
    rewrite Hb. cbn [mbind result_bind].
    destruct Hmain as [-> | ->]; reflexivity.
  - intros Hmain Hmaster Hflag Hparse. apply runMqSubmit_rejected.
    unfold mqSubmitRequest.
    rewrite Htown. cbn [wrap mbind result_bind]. rewrite Hrig.
    cbn [mbind result_bind]. rewrite Hcwd. cbn [wrap mbind result_bind].
    rewrite Hb. cbn [mbind result_bind].
    apply String.eqb_neq in Hmain, Hmaster. rewrite Hmain, Hmaster.
    cbn [orb]. now rewrite Hflag, Hparse.
Qed.

Lemma submit_validation_witness :
  runMqSubmit memstore.bd (sample.env_on "main") sample.submit_plain
    sample.store_with_source =
    mkOutcome (Some (Errorf "cannot submit main/master branch to merge queue"))
      sample.store_with_source [] /\
  runMqSubmit memstore.bd (sample.env_on "polecat/Nux/") sample.submit_plain
    sample.store_with_source =
    mkOutcome
      (Some (Errorf "cannot determine source issue from branch 'polecat/Nux/'; use --issue to specify"))
      sample.store_with_source [].
Proof.
  split.
  - refine (proj1 (submit_validation memstore.bd (sample.env_on "main")
      sample.submit_plain sample.store_with_source "/town" "gastown"
      "/town/gastown/polecats/Toast" "main" sample.gastown
      eq_refl eq_refl eq_refl (or_intror (conj eq_refl eq_refl))) _).
    left; reflexivity.
  - refine (proj2 (submit_validation memstore.bd (sample.env_on "polecat/Nux/")
      sample.submit_plain sample.store_with_source "/town" "gastown"
      "/town/gastown/polecats/Toast" "polecat/Nux/" sample.gastown
      eq_refl eq_refl eq_refl (or_intror (conj eq_refl eq_refl))) _ _ _ _);
      [discriminate | discriminate | reflexivity | reflexivity].
Defined.

(** C10.  The issue [mq submit] creates is created with the store's type
    [task], never [merge-request]; its description is the line
    [type: merge-request] followed by the encoded fields of the request,
    so the marker is the first line of the description and appears in no
    other attribute: the title is [Merge: <issue>]. *)
Theorem submit_creates_task {S : Type} (bd : beads.Beads S) (env : Env)
    (flags : SubmitFlags) (st : S) (r : SubmitRequest) :
  mqSubmitRequest bd env flags st = Ok r ->
  beads.co_Type (sr_opts r) = "task" /\
  beads.co_Type (sr_opts r) <> "merge-request" /\
  beads.co_Title (sr_opts r) = "Merge: " +:+ sr_issue r /\
  beads.co_Description (sr_opts r) =
    "type: merge-request" +:+
    String "010"
      (beads.FormatMRFields
         (beads.mkMRFields (sr_branch r) (sr_target r) (sr_issue r)
            (sr_worker r) (sr_rig r))) /\
  head (Strings.Split (beads.co_Description (sr_opts r)) "010") =
    Some "type: merge-request" /\
  state (runMqSubmit bd env flags st) =
    snd (beads.Create bd (sr_cwd r) st (sr_opts r)).
Proof.
  intros H. pose proof (runMqSubmit_creates bd env flags st r H) as [Hst _].
  apply mqSubmitRequest_inv in H
    as (townRoot & rigName & rg & cwd & branch & _ & _ & _ & _ & _ & _ & _ & ->).
  cbn [sr_opts sr_cwd sr_issue sr_branch sr_target sr_worker sr_rig
       beads.co_Type beads.co_Title beads.co_Description] in *.
  repeat split; try assumption; try discriminate.
Qed.

Lemma submit_creates_task_witness :
  exists r,
    mqSubmitRequest memstore.bd sample.env sample.submit_epic sample.empty_store = Ok r /\
    beads.co_Type (sr_opts r) = "task" /\
    beads.co_Description (sr_opts r) =
      "type: merge-request" +:+ String "010" (beads.FormatMRFields sample.fields) /\
    List.map beads.Type_
      (memstore.items
         (state (runMqSubmit memstore.bd sample.env sample.submit_epic
                   sample.empty_store))) = ["task"].
Proof.
  eexists. split; [reflexivity|].
  pose proof (submit_creates_task memstore.bd sample.env sample.submit_epic
                sample.empty_store _ eq_refl) as (Ht & _ & _ & Hd & _ & Hst).
  split; [exact Ht|]. split; [exact Hd|]. now rewrite Hst.
Defined.

(** ** The queue view *)

Section QueueView.

Context {S : Type}.
Variable bd : beads.Beads S.
Variable env : Env.

(** The display status, case by case. *)
Lemma displayStatus_cases (issue : beads.Issue) :
  (beads.Status issue <> "open" -> displayStatus issue = beads.Status issue) /\
  (beads.Status issue = "open" ->
   beads.BlockedBy issue <> [] \/ 0 < beads.BlockedByCount issue ->
   displayStatus issue = "blocked") /\
  (beads.Status issue = "open" ->
   beads.BlockedBy issue = [] -> beads.BlockedByCount issue <= 0 ->
   displayStatus issue = "ready").
Proof.
  unfold displayStatus. repeat split.
  - intros H. apply String.eqb_neq in H. now rewrite H.
  - intros -> [H|H]; cbn [String.eqb Ascii.eqb Bool.eqb].
    + destruct (beads.BlockedBy issue); [congruence | reflexivity].
    + apply Z.ltb_lt in H. rewrite H. now rewrite orb_true_r.
  - intros -> -> H. apply Z.ltb_ge in H. now rewrite H.
Qed.

(** What the table of [runMQList] shows: one row per issue that passed
    the filters, in the order of the query. *)
Lemma runMQList_table flags rigName st rows :
  runMQList bd env flags rigName st = Ok (OutTable rows) ->
  exists r issues,
    getRefineryManager env rigName = Ok r /\
    (if mqListReady flags
     then exists allReady,
            beads.Ready bd (rig.Path r) st = Ok allReady /\
            issues = filter (fun issue => String.eqb (beads.Type_ issue) "merge-request" = true) allReady
     else beads.List bd (rig.Path r) st
            (beads.mkListOptions "merge-request"
               (if negb (String.eqb (mqListStatus flags) "") then mqListStatus flags
                else "open")) = Ok issues) /\
    rows = map (mqRow env) (filter (fun issue => mqListKeep env flags issue = true) issues).
Proof.
  unfold runMQList. intros H.
  destruct (getRefineryManager env rigName) as [r|e]; [|discriminate H].
  cbn [mbind result_bind] in H.
  exists r.
  destruct (mqListReady flags).
  - destruct (beads.Ready bd (rig.Path r) st) as [allReady|e]; [|discriminate H].
    cbn [wrap mbind result_bind] in H.
    eexists. split; [reflexivity|]. split; [eexists; split; reflexivity|].
    destruct (mqListJSON flags); [discriminate H|].
    destruct (filter _ _); [discriminate H | now inversion H].
  - cbn [negb] in H.
    match type of H with
    | context [beads.List bd ?b st ?o] => destruct (beads.List bd b st o) as [issues|e] eqn:Hl
    end; [|discriminate H].
    cbn [wrap mbind result_bind] in H.
    exists issues. split; [reflexivity|]. split; [first [exact Hl | reflexivity]|].
    destruct (mqListJSON flags); [discriminate H|].
    destruct (filter _ _); [discriminate H | now inversion H].
Qed.

(** The ready view keeps, of what the store calls ready, the issues of
    the store's type [merge-request] only. *)
Lemma runMQList_ready_type flags rigName st rows issue r allReady :
  mqListReady flags = true ->
  runMQList bd env flags rigName st = Ok (OutTable rows) ->
  getRefineryManager env rigName = Ok r ->
  beads.Ready bd (rig.Path r) st = Ok allReady ->
  beads.Type_ issue <> "merge-request" ->
  rows = map (mqRow env)
           (filter (fun i => mqListKeep env flags i = true)
              (filter (fun i => String.eqb (beads.Type_ i) "merge-request" = true) allReady)) /\
  issue ∉ filter (fun i => String.eqb (beads.Type_ i) "merge-request" = true) allReady.
Proof.
  intros Hready H Hmgr Hr Hty.
  apply runMQList_table in H as (r' & issues & Hmgr' & Hq & ->).
  rewrite Hready in Hq. destruct Hq as (allReady' & Hr' & ->).
  assert (r' = r) by congruence. subst r'.
  assert (allReady' = allReady) by congruence. subst allReady'.
  split; [reflexivity|].
  intros Hin. apply list_elem_of_filter in Hin as [Heq _].
  apply String.eqb_eq in Heq. contradiction.
Qed.

(** A table is the rendering, without [--json], of the issues of the
    query that pass the filters. *)
Lemma runMQList_table_query flags rigName st rows :
  runMQList bd env flags rigName st = Ok (OutTable rows) ->
  mqListJSON flags = false /\
  exists issues,
    mqListQuery bd env flags rigName st = Ok issues /\
    rows = map (mqRow env)
             (filter (fun issue => mqListKeep env flags issue = true) issues).
Proof.
  unfold runMQList, mqListQuery. intros H.
  destruct (getRefineryManager env rigName) as [r|e]; [|discriminate H].
  cbn [mbind result_bind] in *.
  destruct (mqListReady flags).
  - destruct (beads.Ready bd (rig.Path r) st) as [allReady|e]; [|discriminate H].
    cbn [wrap mbind result_bind] in *.
    destruct (mqListJSON flags); [discriminate H|].
    split; [reflexivity|]. eexists. split; [reflexivity|].
    destruct (filter _ _); [discriminate H | now inversion H].
  - match type of H with
    | context [beads.List bd ?b st ?o] => destruct (beads.List bd b st o) as [issues|e]
    end; [|discriminate H].
    cbn [wrap mbind result_bind] in *.
    destruct (mqListJSON flags); [discriminate H|].
    split; [reflexivity|]. exists issues. split; [reflexivity|].
    destruct (filter _ _); [discriminate H | now inversion H].
Qed.

(** With [--json] the issues of the query that pass the filters are
    printed as they are stored: no display status is computed. *)
Lemma runMQList_json_stored flags rigName st shown :
  runMQList bd env flags rigName st = Ok (OutJSON shown) ->
  mqListJSON flags = true /\
  exists issues,
    mqListQuery bd env flags rigName st = Ok issues /\
    shown = filter (fun issue => mqListKeep env flags issue = true) issues.
Proof.
  unfold runMQList, mqListQuery. intros H.
  destruct (getRefineryManager env rigName) as [r|e]; [|discriminate H].
  cbn [mbind result_bind] in *.
  destruct (mqListReady flags).
  - destruct (beads.Ready bd (rig.Path r) st) as [allReady|e]; [|discriminate H].
    cbn [wrap mbind result_bind] in *.
    destruct (mqListJSON flags).
    + split; [reflexivity|]. eexists. split; [reflexivity|]. now inversion H.
    + destruct (filter _ _); discriminate H.
  - match type of H with
    | context [beads.List bd ?b st ?o] => destruct (beads.List bd b st o) as [issues|e]
    end; [|discriminate H].
    cbn [wrap mbind result_bind] in *.
    destruct (mqListJSON flags).
    + split; [reflexivity|]. exists issues. split; [reflexivity|]. now inversion H.
    + destruct (filter _ _); discriminate H.
Qed.

End QueueView.

(** C4, as stated, fails: an open issue with an empty blocker list and a
    positive blocker count is shown as blocked, not as ready. *)
Lemma counted_blocker_shown_blocked :
  beads.Status sample.counted_blocker = "open" /\
  beads.BlockedBy sample.counted_blocker = [] /\
  runMQList memstore.bd sample.env sample.list_open "gastown" sample.store_with_mr =
    Ok (OutTable [mqRow sample.env sample.counted_blocker]) /\
  row_status (mqRow sample.env sample.counted_blocker) = "blocked" /\
  row_status (mqRow sample.env sample.counted_blocker) <> "ready".
Proof. repeat split; try reflexivity. vm_compute. discriminate. Qed.

(** C4 (amended).  In the table of the list view, the output without
    [--json], the rows are those of the issues of the query that pass the
    filters, in that order, and the status of each row is the stored
    status verbatim when that is not open (closed, rejected,
    in_progress); blocked when the stored status is open and the blocker
    list is non-empty or the blocker count is positive; ready when the
    stored status is open, the blocker list is empty and the blocker
    count is not positive. *)
Theorem list_view_status {S : Type} (bd : beads.Beads S) (env : Env)
    (flags : ListFlags) (rigName : string) (st : S) (rows : list Row) :
  runMQList bd env flags rigName st = Ok (OutTable rows) ->
  mqListJSON flags = false /\
  exists issues,
    mqListQuery bd env flags rigName st = Ok issues /\
    rows = map (mqRow env)
             (filter (fun issue => mqListKeep env flags issue = true) issues) /\
    forall issue,
      issue ∈ filter (fun issue => mqListKeep env flags issue = true) issues ->
      (beads.Status issue <> "open" ->
       row_status (mqRow env issue) = beads.Status issue) /\
      (beads.Status issue = "open" ->
       beads.BlockedBy issue <> [] \/ 0 < beads.BlockedByCount issue ->
       row_status (mqRow env issue) = "blocked") /\
      (beads.Status issue = "open" ->
       beads.BlockedBy issue = [] -> beads.BlockedByCount issue <= 0 ->
       row_status (mqRow env issue) = "ready").
Proof.
  intros H. apply runMQList_table_query in H as (Hjson & issues & Hq & Hrows).
  split; [exact Hjson|]. exists issues. split; [exact Hq|]. split; [exact Hrows|].
  intros issue _. apply displayStatus_cases.
Qed.

Lemma list_view_status_witness :
  mqListJSON sample.list_open = false /\
  exists issues,
    mqListQuery memstore.bd sample.env sample.list_open "gastown" sample.store_with_mr
      = Ok issues /\
    [mqRow sample.env sample.counted_blocker] =
      map (mqRow sample.env)
        (filter (fun issue => mqListKeep sample.env sample.list_open issue = true) issues) /\
    forall issue,
      issue ∈ filter (fun issue => mqListKeep sample.env sample.list_open issue = true) issues ->
      (beads.Status issue <> "open" ->
       row_status (mqRow sample.env issue) = beads.Status issue) /\
      (beads.Status issue = "open" ->
       beads.BlockedBy issue <> [] \/ 0 < beads.BlockedByCount issue ->
       row_status (mqRow sample.env issue) = "blocked") /\
      (beads.Status issue = "open" ->
       beads.BlockedBy issue = [] -> beads.BlockedByCount issue <= 0 ->
       row_status (mqRow sample.env issue) = "ready").
Proof.
  apply (list_view_status memstore.bd sample.env sample.list_open "gastown"
           sample.store_with_mr).
  reflexivity.
Defined.

(** C1: the submission of the claim's example, followed by the ready
    view.  The submission succeeds and stores the request of worker
    [Toast] for [integration/gt-epic1]; the store reports the new issue as
    ready; the ready view is empty, because the issue was created with
    the type [task] and the view keeps the type [merge-request] only. *)
Theorem submit_then_list_ready :
  let submitted :=
    runMqSubmit memstore.bd sample.env sample.submit_epic sample.empty_store in
  failure submitted = None /\
  (exists issue,
     memstore.Ready "/town/gastown" (state submitted) = Ok [issue] /\
     beads.Type_ issue = "task" /\
     beads.ParseMRFields issue = Some sample.fields /\
     displayStatus issue = "ready") /\
  runMQList memstore.bd sample.env sample.list_ready "gastown" (state submitted) =
    Ok OutEmpty.
Proof.
  cbv zeta. split; [reflexivity|]. split; [|reflexivity].
  eexists. split; [reflexivity|]. repeat split; reflexivity.
Qed.

(** ** The field codec *)

Section Codec.

Lemma length_append (a b : string) :
  String.length (a +:+ b) = (String.length a + String.length b)%nat.
Proof. induction a as [|c a IH]; simpl; [reflexivity | now rewrite IH]. Qed.

Lemma substring_full (v : string) : String.substring 0 (String.length v) v = v.
Proof. induction v as [|c v IH]; simpl; [reflexivity | now rewrite IH]. Qed.

Lemma substring_skip (p v : string) (n : nat) :
  String.substring (String.length p) n (p +:+ v) = String.substring 0 n v.
Proof. induction p as [|c p IH]; simpl; [reflexivity | exact IH]. Qed.

Lemma all_append p (a b : string) :
  Strings.all p (a +:+ b) = Strings.all p a && Strings.all p b.
Proof.
  induction a as [|c a IH]; simpl; [reflexivity|].
  now rewrite IH, andb_assoc.
Qed.

(** Splitting: a text without the separator is one part, and the first
    separator ends the first part. *)
Lemma Split_single sep (e : string) :
  Strings.all (fun c => negb (Ascii.eqb c sep)) e = true ->
  Strings.Split e sep = [e].
Proof.
  induction e as [|c e IH]; simpl; intros H; [reflexivity|].
  apply andb_prop in H as [Hc He]. apply negb_true_iff in Hc.
  now rewrite Hc, (IH He).
Qed.

Lemma Split_line sep (a b : string) :
  Strings.all (fun c => negb (Ascii.eqb c sep)) a = true ->
  Strings.Split (a +:+ String sep b) sep = a :: Strings.Split b sep.
Proof.
  induction a as [|c a IH]; simpl; intros H.
  - now rewrite Ascii.eqb_refl.
  - apply andb_prop in H as [Hc Ha]. apply negb_true_iff in Hc.
    now rewrite Hc, (IH Ha).
Qed.

Lemma Split_Join sep (ls : list string) :
  ls <> [] ->
  Forall (fun e => Strings.all (fun c => negb (Ascii.eqb c sep)) e = true) ls ->
  Strings.Split (Strings.Join ls (String sep "")) sep = ls.
Proof.
  induction ls as [|e ls IH]; intros Hne Hall; [congruence|].
  inversion Hall as [|? ? He Hls]; subst.
  destruct ls as [|e' ls].
  - simpl. now apply Split_single.
  - change (Strings.Join (e :: e' :: ls) (String sep ""))
      with (e +:+ String sep (Strings.Join (e' :: ls) (String sep ""))).
    rewrite Split_line by assumption. f_equal. apply IH; [discriminate | assumption].
Qed.

(** A line [key: value] carries its value for its own key. *)
Lemma line_value_same key v : beads.line_value key (key +:+ ": " +:+ v) = Some v.
Proof.
  unfold beads.line_value. rewrite <- append_assoc.
  rewrite prefix_append_true. f_equal.
  rewrite substring_skip, length_append.
  replace (String.length (key +:+ ": ") + String.length v - String.length (key +:+ ": "))%nat
    with (String.length v) by lia.
  apply substring_full.
Qed.

(** The lines [FormatMRFields] joins. *)
Lemma FormatMRFields_lines (f : beads.MRFields) :
  beads.FormatMRFields f =
  Strings.Join
    (beads.field_line "branch" (beads.Branch f) ++
     beads.field_line "target" (beads.Target f) ++
     beads.field_line "source_issue" (beads.SourceIssue f) ++
     beads.field_line "worker" (beads.Worker f) ++
     beads.field_line "rig" (beads.Rig f)) (String "010" "").
Proof. reflexivity. Qed.

Lemma field_line_single key v :
  beads.single_line key = true -> beads.single_line v = true ->
  Forall (fun e => beads.single_line e = true) (beads.field_line key v).
Proof.
  intros Hk Hv. unfold beads.field_line.
  destruct (String.eqb v ""); constructor; [|constructor].
  unfold beads.single_line in *. rewrite !all_append, Hk, Hv. reflexivity.
Qed.

(** Decoding the line of one field sets that field, when it was empty
    before and the line is omitted for an empty value. *)
Lemma decode_branch v t s w r :
  fold_left beads.decode_line (beads.field_line "branch" v) (beads.mkMRFields "" t s w r)
  = beads.mkMRFields v t s w r.
Proof.
  unfold beads.field_line. destruct (String.eqb v "") eqn:E.
  - apply String.eqb_eq in E. now subst.
  - cbn [fold_left]. unfold beads.decode_line. now rewrite line_value_same.
Qed.

Lemma decode_target b v s w r :
  fold_left beads.decode_line (beads.field_line "target" v) (beads.mkMRFields b "" s w r)
  = beads.mkMRFields b v s w r.
Proof.
  unfold beads.field_line. destruct (String.eqb v "") eqn:E.
  - apply String.eqb_eq in E. now subst.
  - cbn [fold_left]. unfold beads.decode_line.
    change (beads.line_value "branch" ("target" +:+ ": " +:+ v)) with (@None string).
    now rewrite line_value_same.
Qed.

Lemma decode_source_issue b t v w r :
  fold_left beads.decode_line (beads.field_line "source_issue" v) (beads.mkMRFields b t "" w r)
  = beads.mkMRFields b t v w r.
Proof.
  unfold beads.field_line. destruct (String.eqb v "") eqn:E.
  - apply String.eqb_eq in E. now subst.
  - cbn [fold_left]. unfold beads.decode_line.
    change (beads.line_value "branch" ("source_issue" +:+ ": " +:+ v)) with (@None string).
    change (beads.line_value "target" ("source_issue" +:+ ": " +:+ v)) with (@None string).
    now rewrite line_value_same.
Qed.

Lemma decode_worker b t s v r :
  fold_left beads.decode_line (beads.field_line "worker" v) (beads.mkMRFields b t s "" r)
  = beads.mkMRFields b t s v r.
Proof.
  unfold beads.field_line. destruct (String.eqb v "") eqn:E.
  - apply String.eqb_eq in E. now subst.
  - cbn [fold_left]. unfold beads.decode_line.
    change (beads.line_value "branch" ("worker" +:+ ": " +:+ v)) with (@None string).
    change (beads.line_value "target" ("worker" +:+ ": " +:+ v)) with (@None string).
    change (beads.line_value "source_issue" ("worker" +:+ ": " +:+ v)) with (@None string).
    now rewrite line_value_same.
Qed.

Lemma decode_rig b t s w v :
  fold_left beads.decode_line (beads.field_line "rig" v) (beads.mkMRFields b t s w "")
  = beads.mkMRFields b t s w v.
Proof.
  unfold beads.field_line. destruct (String.eqb v "") eqn:E.
  - apply String.eqb_eq in E. now subst.
  - cbn [fold_left]. unfold beads.decode_line.
    change (beads.line_value "branch" ("rig" +:+ ": " +:+ v)) with (@None string).
    change (beads.line_value "target" ("rig" +:+ ": " +:+ v)) with (@None string).
    change (beads.line_value "source_issue" ("rig" +:+ ": " +:+ v)) with (@None string).
    change (beads.line_value "worker" ("rig" +:+ ": " +:+ v)) with (@None string).
    now rewrite line_value_same.
Qed.

(** Decoding the lines of a field set, from the empty field set, gives
    the field set back. *)
Lemma decode_lines (f : beads.MRFields) :
  fold_left beads.decode_line
    (beads.field_line "branch" (beads.Branch f) ++
     beads.field_line "target" (beads.Target f) ++
     beads.field_line "source_issue" (beads.SourceIssue f) ++
     beads.field_line "worker" (beads.Worker f) ++
     beads.field_line "rig" (beads.Rig f))
    (beads.mkMRFields "" "" "" "" "") = f.
Proof.
  destruct f as [b t s w r]. cbn [beads.Branch beads.Target beads.SourceIssue beads.Worker beads.Rig].
  rewrite !fold_left_app.
  now rewrite decode_branch, decode_target, decode_source_issue, decode_worker, decode_rig.
Qed.

End Codec.

(** Decoding undoes encoding on single-line values. *)
Lemma ParseMRFields_encode (f : beads.MRFields) (issue : beads.Issue) :
  beads.single_line_fields f = true ->
  beads.Description issue = beads.encode f ->
  beads.ParseMRFields issue = Some f.
Proof.
  intros Hsl Hdesc. unfold beads.ParseMRFields. rewrite Hdesc. unfold beads.encode.
  rewrite Split_line by reflexivity.
  cbn [existsb]. rewrite String.eqb_refl. cbn [orb fold_left].
  change (beads.decode_line (beads.mkMRFields "" "" "" "" "") beads.marker)
    with (beads.mkMRFields "" "" "" "" "").
  f_equal. rewrite FormatMRFields_lines.
  pose proof (decode_lines f) as Hdec.
  assert (Hall : Forall (fun e => beads.single_line e = true)
            (beads.field_line "branch" (beads.Branch f) ++
             beads.field_line "target" (beads.Target f) ++
             beads.field_line "source_issue" (beads.SourceIssue f) ++
             beads.field_line "worker" (beads.Worker f) ++
             beads.field_line "rig" (beads.Rig f))).
  { unfold beads.single_line_fields in Hsl.
    repeat (apply andb_prop in Hsl as [Hsl ?]).
    repeat (apply Forall_app; split);
      apply field_line_single; (reflexivity || assumption). }
  revert Hdec Hall.
  generalize (beads.field_line "branch" (beads.Branch f) ++
              beads.field_line "target" (beads.Target f) ++
              beads.field_line "source_issue" (beads.SourceIssue f) ++
              beads.field_line "worker" (beads.Worker f) ++
              beads.field_line "rig" (beads.Rig f)).
  intros lines Hdec Hall. destruct lines as [|l lines'] eqn:Hls.
  - exact Hdec.
  - rewrite Split_Join; [exact Hdec | discriminate | exact Hall].
Qed.

(** The description a submission creates is decoded to the fields of the
    request, when branch, issue, epic and rig name are single-line. *)
Lemma submit_description_decodes {S : Type} (bd : beads.Beads S) (env : Env)
    (flags : SubmitFlags) (st : S) (r : SubmitRequest) (issue : beads.Issue) :
  mqSubmitRequest bd env flags st = Ok r ->
  beads.Description issue = beads.co_Description (sr_opts r) ->
  beads.single_line_fields
    (beads.mkMRFields (sr_branch r) (sr_target r) (sr_issue r) (sr_worker r) (sr_rig r)) = true ->
  beads.ParseMRFields issue =
    Some (beads.mkMRFields (sr_branch r) (sr_target r) (sr_issue r) (sr_worker r) (sr_rig r)).
Proof.
  intros H Hd Hsl. apply ParseMRFields_encode; [exact Hsl|].
  rewrite Hd.
  apply mqSubmitRequest_inv in H
    as (townRoot & rigName & rg & cwd & branch & _ & _ & _ & _ & _ & _ & _ & ->).
  reflexivity.
Qed.

(** C6.  For every field set whose five values are single-line, decoding
    an issue whose description is the encoded text (the marker line, then
    [FormatMRFields], as the submission writes it) gives the field set
    back: Decode (Encode f) = f. *)
Theorem codec_round_trip (f : beads.MRFields) (issue : beads.Issue) :
  beads.single_line_fields f = true ->
  beads.Description issue = "type: merge-request" +:+ String "010" (beads.FormatMRFields f) ->
  beads.ParseMRFields issue = Some f.
Proof. exact (ParseMRFields_encode f issue). Qed.

Lemma codec_round_trip_witness :
  beads.ParseMRFields
    (beads.mkIssue "gt-1" "Merge: gt-42" "task" "open" 2
       (beads.encode sample.fields) [] 0 "2025-01-01T00:00:00Z")
  = Some sample.fields.
Proof. apply codec_round_trip; reflexivity. Defined.

(** ** Retry and reject *)

Section RetryReject.

Variable env : Env.
Variable process : refinery.State -> string -> result unit * refinery.State.
Variable send : refinery.Mail -> option error.
Variable notice : refinery.MergeRequest -> string -> string * string.

(** A failed merge request: stored status open, with an error. *)
Lemma failed_iff (mr : refinery.MergeRequest) :
  refinery.failed mr = true <->
  refinery.Status mr = refinery.MROpen /\ refinery.Error mr <> "".
Proof.
  unfold refinery.failed. destruct (refinery.Status mr); split;
    try (intros H; discriminate H); try (intros [H _]; discriminate H).
  - intros H. apply negb_true_iff, String.eqb_neq in H. auto.
  - intros [_ H]. now apply negb_true_iff, String.eqb_neq.
Qed.

Lemma Retry_not_found st id now :
  refinery.mrs st !! id = None ->
  refinery.Retry process st id now = (Err ErrMRNotFound, st).
Proof. unfold refinery.Retry. now intros ->. Qed.

Lemma Retry_not_failed st id now mr :
  refinery.mrs st !! id = Some mr ->
  ~ (refinery.Status mr = refinery.MROpen /\ refinery.Error mr <> "") ->
  refinery.Retry process st id now = (Err ErrMRNotFailed, st).
Proof.
  unfold refinery.Retry. intros -> H.
  destruct (refinery.failed mr) eqn:Hf; [|reflexivity].
  apply failed_iff in Hf. contradiction.
Qed.

Lemma Retry_Ok st id now st' :
  refinery.Retry process st id now = (Ok tt, st') ->
  exists mr,
    refinery.mrs st !! id = Some mr /\
    refinery.Status mr = refinery.MROpen /\ refinery.Error mr <> "" /\
    (now = false -> st' = refinery.set_mr st id (refinery.clear_error mr)).
Proof.
  unfold refinery.Retry. intros H.
  destruct (refinery.mrs st !! id) as [mr|]; [|discriminate H].
  destruct (refinery.failed mr) eqn:Hf; [|discriminate H].
  apply failed_iff in Hf as [Hs He].
  exists mr. repeat split; try assumption.
  intros ->. now inversion H.
Qed.

(** The target of a rejection is a stored merge request, found under
    the identifier given or by its branch. *)
Lemma FindMR_Some st key id mr :
  refinery.FindMR st key = Some (id, mr) ->
  refinery.mrs st !! id = Some mr /\ (id = key \/ refinery.Branch mr = key).
Proof.
  unfold refinery.FindMR.
  destruct (refinery.mrs st !! key) as [mr0|] eqn:Hk.
  - intros H; inversion H; subst. auto.
  - intros H. apply fmap_Some in H as ([i [id' mr']] & Hfind & Heq).
    cbn in Heq. inversion Heq; subst id' mr'.
    apply list_find_Some in Hfind as (Hl & Hb & _).
    split; [|right; exact Hb].
    apply elem_of_map_to_list, list_elem_of_lookup. eauto.
Qed.

Lemma RejectMR_Ok st key reason notify mr' st' :
  refinery.RejectMR send notice st key reason notify = (Ok mr', st') ->
  exists id mr,
    refinery.FindMR st key = Some (id, mr) /\
    mr' = refinery.reject reason mr /\
    refinery.mrs st' = <[id := mr']> (refinery.mrs st) /\
    refinery.issues st' = refinery.issues st /\
    refinery.sent st' =
      refinery.sent st ++
      (if notify
       then [refinery.mkMail (rig.worker_address (refinery.Rig mr) (refinery.Worker mr))
               (fst (notice mr reason)) (snd (notice mr reason))]
       else []).
Proof.
  unfold refinery.RejectMR. intros H.
  destruct (refinery.FindMR st key) as [[id mr]|]; [|discriminate H].
  exists id, mr. split; [reflexivity|].
  destruct notify; inversion H; subst; cbn; rewrite ?app_nil_r; auto.
Qed.

Lemma RejectMR_not_found st key reason notify :
  refinery.FindMR st key = None ->
  refinery.RejectMR send notice st key reason notify = (Err ErrMRNotFound, st).
Proof. unfold refinery.RejectMR. now intros ->. Qed.

End RetryReject.

(** C8.  With the manager of the rig at hand: when no merge request has
    the identifier, [Retry] fails with [NotFound] and the command reports
    that the merge request was not found; when the merge request exists
    but is not open with a non-empty error, [Retry] fails with [NotFailed]
    and the command reports that it has not failed, with its status; in
    both cases the state is untouched.  The command succeeds only on a
    merge request that was open with a non-empty error. *)
Theorem retry_errors (env : Env)
    (process : refinery.State -> string -> result unit * refinery.State)
    (flags : RetryFlags) (rigName mrID : string) (st : refinery.State)
    (r : rig.Rig) :
  getRefineryManager env rigName = Ok r ->
  (refinery.mrs st !! mrID = None ->
   refinery.GetMR st mrID = Err ErrMRNotFound /\
   refinery.Retry process st mrID (mqRetryNow flags) = (Err ErrMRNotFound, st) /\
   runMQRetry env process flags rigName mrID st =
     mkOutcome
       (Some (Errorf ("merge request '" +:+ mrID +:+ "' not found in rig '"
                      +:+ rigName +:+ "'"))) st []) /\
  (forall mr,
     refinery.mrs st !! mrID = Some mr ->
     ~ (refinery.Status mr = refinery.MROpen /\ refinery.Error mr <> "") ->
     refinery.Retry process st mrID (mqRetryNow flags) = (Err ErrMRNotFailed, st) /\
     failure (runMQRetry env process flags rigName mrID st) =
       Some (Errorf ("merge request '" +:+ mrID +:+ "' has not failed (status: "
                     +:+ refinery.status_string (refinery.Status mr) +:+ ")")) /\
     state (runMQRetry env process flags rigName mrID st) = st) /\
  (failure (runMQRetry env process flags rigName mrID st) = None ->
   exists mr,
     refinery.mrs st !! mrID = Some mr /\
     refinery.Status mr = refinery.MROpen /\ refinery.Error mr <> "").
Proof.
  intros Hmgr. split; [|split].
  - intros Hnone. split; [|split].
    + unfold refinery.GetMR. now rewrite Hnone.
    + now apply Retry_not_found.
    + unfold runMQRetry, refinery.GetMR. now rewrite Hmgr, Hnone.
  - intros mr Hmr Hnf.
    pose proof (Retry_not_failed process st mrID (mqRetryNow flags) mr Hmr Hnf) as HR.
    split; [exact HR|].
    unfold runMQRetry, refinery.GetMR. rewrite Hmgr, Hmr, HR. split; reflexivity.
  - unfold runMQRetry, refinery.GetMR. rewrite Hmgr.
    destruct (refinery.mrs st !! mrID) as [mr|] eqn:Hmr; [|intros H; discriminate H].
    destruct (refinery.Retry process st mrID (mqRetryNow flags)) as [[[]|e] st'] eqn:HR.
    + intros _. apply Retry_Ok in HR as (mr0 & Hmr0 & Hs & He & _).
      exists mr. rewrite Hmr in Hmr0. inversion Hmr0; subst. auto.
    + destruct e; intros H; discriminate H.
Qed.

Lemma retry_errors_witness :
  failure (runMQRetry sample.env sample.process_ok (mkRetryFlags false)
             "gastown" "gt-mr-9" sample.manager)
    = Some (Errorf "merge request 'gt-mr-9' not found in rig 'gastown'") /\
  failure (runMQRetry sample.env sample.process_ok (mkRetryFlags false)
             "gastown" "gt-mr-2" sample.manager)
    = Some (Errorf "merge request 'gt-mr-2' has not failed (status: open)") /\
  failure (runMQRetry sample.env sample.process_ok (mkRetryFlags false)
             "gastown" "gt-mr-1" sample.manager) = None.
Proof.
  split; [|split; [|reflexivity]].
  - destruct (retry_errors sample.env sample.process_ok (mkRetryFlags false)
                "gastown" "gt-mr-9" sample.manager sample.gastown eq_refl)
      as (Hnf & _ & _).
    destruct (Hnf eq_refl) as (_ & _ & Hcmd). now rewrite Hcmd.
  - destruct (retry_errors sample.env sample.process_ok (mkRetryFlags false)
                "gastown" "gt-mr-2" sample.manager sample.gastown eq_refl)
      as (_ & Hnot & _).
    destruct (Hnot sample.fresh_mr eq_refl) as (_ & Hcmd & _).
    + intros [_ H]. now apply H.
    + exact Hcmd.
Defined.

(** C9.  After a successful [RejectMR], resolved by identifier or by
    exact branch match: the stored status of the merge request is
    rejected, the reason is the last entry of its audit trail and its
    error field is what it was; every other merge request and the status
    of every issue, the source issue included, are unchanged; with
    [notify] exactly one mail dispatch is attempted, addressed to the
    worker, and without it none; the outcome does not depend on whether
    the dispatch succeeds; and the reject command succeeds. *)
Theorem reject_effect (env : Env) (send : refinery.Mail -> option error)
    (notice : refinery.MergeRequest -> string -> string * string)
    (flags : RejectFlags) (rigName key : string) (r : rig.Rig)
    (st st' : refinery.State) (mr' : refinery.MergeRequest) :
  getRefineryManager env rigName = Ok r ->
  refinery.RejectMR send notice st key (mqRejectReason flags) (mqRejectNotify flags)
    = (Ok mr', st') ->
  exists id mr,
    refinery.mrs st !! id = Some mr /\
    (id = key \/ refinery.Branch mr = key) /\
    refinery.mrs st' !! id = Some mr' /\
    refinery.Status mr' = refinery.MRRejected /\
    refinery.AuditTrail mr' = refinery.AuditTrail mr ++ [mqRejectReason flags] /\
    refinery.Error mr' = refinery.Error mr /\
    (forall j, j <> id -> refinery.mrs st' !! j = refinery.mrs st !! j) /\
    refinery.issues st' = refinery.issues st /\
    refinery.issues st' !! refinery.IssueID mr = refinery.issues st !! refinery.IssueID mr /\
    (mqRejectNotify flags = true ->
     exists m, refinery.sent st' = refinery.sent st ++ [m] /\
               refinery.To m = rig.worker_address (refinery.Rig mr) (refinery.Worker mr)) /\
    (mqRejectNotify flags = false -> refinery.sent st' = refinery.sent st) /\
    (forall send',
       fst (refinery.RejectMR send' notice st key (mqRejectReason flags)
              (mqRejectNotify flags)) = Ok mr' /\
       refinery.mrs (snd (refinery.RejectMR send' notice st key (mqRejectReason flags)
                            (mqRejectNotify flags))) = refinery.mrs st') /\
    failure (runMQReject env send notice flags rigName key st) = None /\
    state (runMQReject env send notice flags rigName key st) = st'.
Proof.
  intros Hmgr HR.
  pose proof (RejectMR_Ok send notice st key _ _ mr' st' HR)
    as (id & mr & Hfind & -> & Hmrs & Hiss & Hsent).
  pose proof (FindMR_Some st key id mr Hfind) as [Hmr Hkey].
  exists id, mr. repeat split; try assumption; try reflexivity.
  - rewrite Hmrs. apply lookup_insert_eq.
  - intros j Hj. rewrite Hmrs. now apply lookup_insert_ne.
  - now rewrite Hiss.
  - intros Hn. rewrite Hn in Hsent. eauto.
  - intros Hn. rewrite Hn in Hsent. now rewrite app_nil_r in Hsent.
  - unfold refinery.RejectMR. rewrite Hfind. now destruct (mqRejectNotify flags).
  - unfold refinery.RejectMR. rewrite Hfind, Hmrs.
    now destruct (mqRejectNotify flags).
  - unfold runMQReject. now rewrite Hmgr, HR.
  - unfold runMQReject. now rewrite Hmgr, HR.
Qed.

Lemma reject_effect_witness :
  let st' :=
    snd (refinery.RejectMR sample.send_down sample.notice sample.manager
           "polecat/Nux/gt-xyz" "Does not meet requirements" true) in
  exists id,
    refinery.Status <$> refinery.mrs st' !! id = Some refinery.MRRejected /\
    refinery.issues st' !! "gt-xyz" = Some "in_progress" /\
    List.map refinery.To (refinery.sent st') = ["gastown/polecats/Nux"] /\
    refinery.reported st' = [External "mail transport unavailable"].
Proof.
  intros st'.
  assert (HR : refinery.RejectMR sample.send_down sample.notice sample.manager
                 "polecat/Nux/gt-xyz" "Does not meet requirements" true
               = (Ok (refinery.reject "Does not meet requirements" sample.fresh_mr), st')).
  { vm_compute. reflexivity. }
  destruct (reject_effect sample.env sample.send_down sample.notice
              (mkRejectFlags "Does not meet requirements" true)
              "gastown" "polecat/Nux/gt-xyz" sample.gastown sample.manager st'
              _ eq_refl HR)
    as (id & mr & _ & _ & Hmr' & _).
  exists id. split; [now rewrite Hmr'|].
  repeat split; vm_compute; reflexivity.
Defined.

(** * Further properties *)

(** ** The fallback rule of the branch parser: leftmost and longest *)

Section Fallback.

Lemma append_length_inj (a b x y : string) :
  a +:+ x = b +:+ y -> String.length a = String.length b -> a = b /\ x = y.
Proof.
  revert b; induction a as [|c a IH]; intros [|c' b] H Hl; simpl in *;
    try discriminate; [auto|].
  inversion H; subst. destruct (IH b) as [-> ->]; auto.
Qed.

(** Two runs of a class, each ended by a byte outside the class or by
    the end of the text, are the same run. *)
Lemma run_prefix p (a' a x y : string) :
  Strings.all p a' = true -> Strings.all p a = true ->
  starts_with p y = false ->
  a' +:+ x = a +:+ y ->
  exists a'', a = a' +:+ a'' /\ x = a'' +:+ y.
Proof.
  revert a; induction a' as [|c a' IH]; intros a Ha' Ha Hy H.
  - exists a. simpl in H. auto.
  - simpl in Ha'. apply andb_prop in Ha' as [Hc Ha'].
    destruct a as [|c0 a].
    + simpl in H. subst y. simpl in Hy. congruence.
    + simpl in Ha. apply andb_prop in Ha as [_ Ha].
      inversion H; subst c0.
      destruct (IH a Ha' Ha Hy) as (a'' & -> & ->); [assumption|].
      exists a''. auto.
Qed.

Lemma run_unique p (l l' x y : string) :
  Strings.all p l = true -> Strings.all p l' = true ->
  starts_with p x = false -> starts_with p y = false ->
  l +:+ x = l' +:+ y -> l = l' /\ x = y.
Proof.
  intros Hl Hl' Hx Hy H.
  destruct (run_prefix p l l' x y Hl Hl' Hy H) as (u & -> & ->).
  destruct u as [|c u].
  - rewrite append_empty_r. auto.
  - exfalso. rewrite all_append in Hl'. apply andb_prop in Hl' as [_ Hu].
    simpl in Hu, Hx. apply andb_prop in Hu as [Hc _]. congruence.
Qed.

(** With a continuation that always succeeds, [class+] takes the whole
    run. *)
Lemma more_total_inv p k s t :
  (forall s, is_Some (k s)) ->
  Regexp.more p s k = Some t ->
  exists s1 s2 t2,
    s = s1 +:+ s2 /\ Strings.all p s1 = true /\ starts_with p s2 = false /\
    k s2 = Some t2 /\ t = s1 +:+ t2.
Proof.
  intros Hk. revert t; induction s as [|c s IH]; intros t H; simpl in H.
  - exists "", "", t; auto.
  - destruct (p c) eqn:Hc.
    + destruct (more_total p k Hk s) as [u Hu]. rewrite Hu in H.
      inversion H; subst.
      destruct (IH u Hu) as (s1 & s2 & t2 & -> & Hall & Hs2 & Hk2 & ->).
      exists (String c s1), s2, t2. simpl. rewrite Hc, Hall. auto.
    + exists "", (String c s), t. simpl. auto.
Qed.

Lemma plus_total_inv p k s t :
  (forall s, is_Some (k s)) ->
  Regexp.rmatch (Regexp.Plus p) s k = Some t ->
  exists s1 s2 t2,
    s = s1 +:+ s2 /\ s1 <> "" /\ Strings.all p s1 = true /\
    starts_with p s2 = false /\ k s2 = Some t2 /\ t = s1 +:+ t2.
Proof.
  intros Hk H. destruct s as [|c s]; simpl in H; [discriminate|].
  destruct (p c) eqn:Hc; [|discriminate].
  destruct (Regexp.more p s k) as [u|] eqn:Hm; [|discriminate].
  inversion H; subst.
  apply more_total_inv in Hm as (s1 & s2 & t2 & -> & Hall & Hs2 & Hk2 & ->);
    [|assumption].
  exists (String c s1), s2, t2. simpl. rewrite Hc, Hall.
  repeat split; try assumption. discriminate.
Qed.

Lemma match_here_greedy s t :
  Regexp.match_here issuePattern s = Some t ->
  exists l a o rest,
    s = l +:+ "-" +:+ a +:+ o +:+ rest /\ t = l +:+ "-" +:+ a +:+ o /\
    l <> "" /\ Strings.all Regexp.lower l = true /\
    a <> "" /\ Strings.all Regexp.lower_or_digit a = true /\
    closed_match o rest.
Proof.
  unfold Regexp.match_here, issuePattern. rewrite rmatch_seq. intros H.
  apply plus_inv in H as (l & s2 & t2 & -> & Hl & Hlall & H & ->).
  rewrite rmatch_seq in H.
  apply lit_inv in H as (s3 & t3 & -> & H & ->).
  rewrite rmatch_seq in H.
  apply plus_total_inv in H as (a & s4 & t4 & -> & Ha & Haall & Hs4 & H & ->);
    [|intros s; apply opt_total; eauto].
  cbn [Regexp.rmatch] in H.
  match type of H with
  | match ?m with _ => _ end = _ => destruct m as [u|] eqn:Hopt
  end.
  - inversion H; subst u. clear H.
    change (Regexp.rmatch (Regexp.Lit ".") s4
              (fun s' => Regexp.rmatch (Regexp.Plus Regexp.digit) s' (fun _ => Some ""))
            = Some t4) in Hopt.
    apply lit_inv in Hopt as (s5 & t5 & -> & H & ->).
    apply plus_total_inv in H as (d & s6 & t6 & -> & Hd & Hdall & Hs6 & H & ->);
      [|eauto].
    inversion H; subst t6. rewrite append_empty_r.
    exists l, a, ("." +:+ d), s6.
    split; [reflexivity|]. split; [reflexivity|].
    do 4 (split; [assumption|]).
    right. exists d. auto.
  - inversion H; subst t4. rewrite append_empty_r.
    exists l, a, "", s4.
    split; [reflexivity|]. split; [now rewrite append_empty_r|].
    do 4 (split; [assumption|]).
    left. split; [reflexivity|]. split; [assumption|].
    intros c r -> .
    change (Regexp.rmatch (Regexp.Lit ".") (String "." (String c r))
              (fun s' => Regexp.rmatch (Regexp.Plus Regexp.digit) s' (fun _ => Some ""))
            = None) in Hopt.
    destruct (Regexp.digit c) eqn:Hc; [|reflexivity].
    exfalso.
    assert (Hsome : is_Some
              (Regexp.rmatch (Regexp.Lit ".") (String "." (String c r))
                 (fun s' => Regexp.rmatch (Regexp.Plus Regexp.digit) s' (fun _ => Some "")))).
    { apply lit_step. apply plus_total; [assumption | eauto]. }
    destruct Hsome as [u Hu]. congruence.
Qed.

(** Every token that starts where a match starts is a prefix of the
    match. *)
Lemma match_here_longest s t t' post' :
  Regexp.match_here issuePattern s = Some t ->
  s = t' +:+ post' -> issue_token t' ->
  exists u, t = t' +:+ u.
Proof.
  intros Hm Hs (l' & a' & o' & -> & Hl' & Hl'all & Ha' & Ha'all & Ho').
  apply match_here_greedy in Hm
    as (l & a & o & rest & Hs' & -> & Hl & Hlall & Ha & Haall & Hclosed).
  rewrite Hs' in Hs. rewrite !append_assoc in Hs.
  apply (run_unique Regexp.lower) in Hs as [-> Hs]; try assumption; try reflexivity.
  inversion Hs as [Hs1]. clear Hs.
  assert (Hend : starts_with Regexp.lower_or_digit (o +:+ rest) = false).
  { destruct Hclosed as [(-> & Hr & _)|(d & -> & _)]; [exact Hr | reflexivity]. }
  symmetry in Hs1.
  destruct (run_prefix Regexp.lower_or_digit a' a _ _ Ha'all Haall Hend Hs1)
    as (a'' & -> & Hrest).
  destruct Ho' as [-> | (d' & -> & Hd' & Hd'all)].
  - exists (a'' +:+ o). rewrite append_empty_r, !append_assoc. reflexivity.
  - destruct a'' as [|c a''].
    2:{ exfalso. rewrite all_append in Haall. apply andb_prop in Haall as [_ Hc].
        simpl in Hc. apply andb_prop in Hc as [Hc _].
        inversion Hrest; subst c. discriminate Hc. }
    rewrite append_empty_r. simpl in Hrest.
    destruct Hclosed as [(-> & _ & Hnodot)|(d & -> & Hd & Hdall & Hr)].
    + exfalso. destruct d' as [|c d']; [congruence|].
      simpl in Hd'all. apply andb_prop in Hd'all as [Hc _].
      simpl in Hrest. symmetry in Hrest.
      rewrite (Hnodot _ _ Hrest) in Hc. discriminate Hc.
    + rewrite append_assoc in Hrest. inversion Hrest as [Hd2].
      destruct (run_prefix Regexp.digit d' d _ _ Hd'all Hdall Hr Hd2)
        as (d'' & -> & _).
      exists d''. rewrite !append_assoc. reflexivity.
Qed.

(** [find] returns the match at the first position that has one. *)
Lemma find_leftmost r s t :
  Regexp.find r s = Some t ->
  exists pre rest,
    s = pre +:+ rest /\ Regexp.match_here r rest = Some t /\
    forall pre' rest',
      s = pre' +:+ rest' -> (String.length pre' < String.length pre)%nat ->
      Regexp.match_here r rest' = None.
Proof.
  revert t; induction s as [|c s IH]; intros t H.
  - cbn [Regexp.find] in H.
    destruct (Regexp.match_here r "") as [u|] eqn:Hm; [|discriminate].
    exists "", "". repeat split; [congruence|]. intros ? ? _ Hlt. simpl in Hlt. lia.
  - cbn [Regexp.find] in H.
    destruct (Regexp.match_here r (String c s)) as [u|] eqn:Hm.
    + exists "", (String c s). repeat split; [congruence|].
      intros ? ? _ Hlt. simpl in Hlt. lia.
    + destruct (IH t H) as (pre & rest & -> & Hrest & Hbefore).
      exists (String c pre), rest. repeat split; [assumption|].
      intros [|c' pre'] rest' Heq Hlt.
      * simpl in Heq. now subst rest'.
      * simpl in Heq. inversion Heq; subst c'.
        apply (Hbefore pre' rest'); [assumption | simpl in Hlt; lia].
Qed.

End Fallback.

(** X1.  On a branch that is not of the polecat form and that contains
    an issue-like token, the parser leaves the worker empty and returns as
    issue a token of the branch: the one that starts leftmost and, among
    the tokens starting there, the longest (every other one is a prefix
    of it). *)
Theorem parseBranchName_fallback_token (branch : string) :
  ~ polecat_form branch ->
  contains_token branch ->
  Worker (parseBranchName branch) = "" /\
  exists pre post,
    branch = pre +:+ Issue (parseBranchName branch) +:+ post /\
    issue_token (Issue (parseBranchName branch)) /\
    forall pre' t' post',
      branch = pre' +:+ t' +:+ post' -> issue_token t' ->
      (String.length pre <= String.length pre')%nat /\
      (String.length pre' = String.length pre ->
       exists u, Issue (parseBranchName branch) = t' +:+ u).
Proof.
  intros Hform Htok.
  destruct (find_token branch Htok) as [t Hfind].
  assert (Hparse : parseBranchName branch = mkBranchInfo branch t "").
  { unfold parseBranchName, Regexp.FindStringSubmatch. rewrite Hfind. cbn [Worker].
    destruct (Strings.HasPrefix branch "polecat/") eqn:Hp; [|reflexivity].
    destruct (Strings.SplitN branch "/" 3) as [|p0 [|p1 [|p2 [|p3 ps]]]] eqn:Hs;
      try reflexivity.
    exfalso. apply Hform.
    destruct (polecat_parts _ _ _ _ Hp Hs) as (_ & -> & _). now exists p1, p2. }
  rewrite Hparse. cbn [Worker Issue]. split; [reflexivity|].
  destruct (find_leftmost _ _ _ Hfind) as (pre & rest & Hs & Hm & Hbefore).
  destruct (match_here_inv _ _ Hm) as (post & Hrest & Htoken).
  exists pre, post. split; [now rewrite Hs, Hrest|]. split; [exact Htoken|].
  intros pre' t' post' Hs' Htoken'.
  assert (Hle : (String.length pre <= String.length pre')%nat).
  { destruct (Nat.le_gt_cases (String.length pre) (String.length pre')) as [|Hlt];
      [assumption|].
    exfalso. pose proof (Hbefore pre' (t' +:+ post') Hs' Hlt) as Hnone.
    destruct Htoken' as (l & a & o & -> & Hl & Hlall & Ha & Haall & _).
    rewrite !append_assoc in Hnone.
    destruct (match_here_token l a (o +:+ post') Hl Hlall Ha Haall) as [u Hu].
    congruence. }
  split; [exact Hle|].
  intros Hlen. rewrite Hs in Hs'.
  destruct (append_length_inj pre pre' rest (t' +:+ post') Hs' (eq_sym Hlen)) as [_ Hrest'].
  exact (match_here_longest rest t t' post' Hm Hrest' Htoken').
Qed.

Lemma parseBranchName_fallback_token_witness :
  Worker (parseBranchName "feature/gt-abc123.2-impl") = "" /\
  Issue (parseBranchName "feature/gt-abc123.2-impl") = "gt-abc123.2".
Proof.
  assert (Hform : ~ polecat_form "feature/gt-abc123.2-impl").
  { intros (w & i & H). discriminate H. }
  assert (Htok : contains_token "feature/gt-abc123.2-impl").
  { exists "feature/", "gt-abc", "123.2-impl". split; [reflexivity|].
    exists "gt", "abc", "". repeat split; try reflexivity; try discriminate.
    now left. }
  destruct (parseBranchName_fallback_token "feature/gt-abc123.2-impl" Hform Htok)
    as [Hw _].
  split; [exact Hw | reflexivity].
Defined.

(** X2.  The worker the parser returns never contains [/], and it is
    non-empty only on a branch of the polecat form, which is then
    [polecat/<worker>/<issue>] of the worker and issue returned. *)
Theorem parseBranchName_worker (branch : string) :
  Strings.all (fun c => negb (Ascii.eqb c "/")) (Worker (parseBranchName branch)) = true /\
  (Worker (parseBranchName branch) = "" \/
   branch = "polecat/" +:+ Worker (parseBranchName branch) +:+ "/"
            +:+ Issue (parseBranchName branch)).
Proof.
  assert (Hfb : forall fb,
            fb = match Regexp.FindStringSubmatch issuePattern branch with
                 | _ :: m1 :: _ => mkBranchInfo branch m1 ""
                 | _ => mkBranchInfo branch "" ""
                 end -> Worker fb = "").
  { intros fb ->. now destruct (Regexp.FindStringSubmatch issuePattern branch) as [|? [|? ?]]. }
  unfold parseBranchName. cbn [Worker].
  destruct (Strings.HasPrefix branch "polecat/") eqn:Hp;
    [|rewrite (Hfb _ eq_refl); auto].
  destruct (Strings.SplitN branch "/" 3) as [|p0 [|p1 [|p2 [|p3 ps]]]] eqn:Hs;
    try (rewrite (Hfb _ eq_refl); auto).
  cbn [Worker Issue].
  destruct (polecat_parts _ _ _ _ Hp Hs) as (_ & Hb & Hall). auto.
Qed.

(** ** Rig discovery *)

Section RigDiscovery.

Lemma Split_nonempty s sep : Strings.Split s sep <> [].
Proof.
  destruct s as [|c s]; simpl; [discriminate|].
  destruct (Ascii.eqb c sep); [discriminate|].
  destruct (Strings.Split s sep); discriminate.
Qed.

(** The first part of a split is the text before the first separator. *)
Lemma Split_head sep s p ps :
  Strings.Split s sep = p :: ps ->
  Strings.all (fun c => negb (Ascii.eqb c sep)) p = true /\
  (s = p \/ exists rest, s = p +:+ String sep rest).
Proof.
  revert p ps; induction s as [|c s IH]; intros p ps H; simpl in H.
  - inversion H; subst. auto.
  - destruct (Ascii.eqb c sep) eqn:E.
    + apply Ascii.eqb_eq in E; subst c. inversion H; subst.
      split; [reflexivity|]. right. exists s. reflexivity.
    + destruct (Strings.Split s sep) as [|l ls] eqn:Hs.
      * now apply Split_nonempty in Hs.
      * inversion H; subst.
        assert (Hl : Strings.all (fun c => negb (Ascii.eqb c sep)) l = true /\
                     (s = l \/ exists rest, s = l +:+ String sep rest))
          by first [exact (IH _ _ eq_refl) | exact (IH _ _ Hs)].
        destruct Hl as [Hall Hform].
        split; [simpl; now rewrite E, Hall|].
        destruct Hform as [-> | (rest & ->)]; [now left|].
        right. exists rest. reflexivity.
Qed.

Lemma Split_first sep p (s : string) :
  Strings.all (fun c => negb (Ascii.eqb c sep)) p = true ->
  s = p \/ (exists rest, s = p +:+ String sep rest) ->
  exists ps, Strings.Split s sep = p :: ps.
Proof.
  intros Hall [-> | (rest & ->)].
  - exists []. now apply Split_single.
  - exists (Strings.Split rest sep). now apply Split_line.
Qed.

End RigDiscovery.

(** X3.  [findCurrentRig] succeeds with a rig name exactly when the
    working directory and its path relative to the town root are found,
    the name is the first component of that relative path, is neither
    empty nor [.], and the rig manager knows the rig. *)
Theorem findCurrentRig_first_component (env : Env) (townRoot rigName : string)
    (r : rig.Rig) :
  findCurrentRig env townRoot = Ok (rigName, r) <->
  exists cwd relPath,
    Getwd env = Ok cwd /\
    Rel env townRoot cwd = Ok relPath /\
    (relPath = rigName \/ exists rest, relPath = rigName +:+ "/" +:+ rest) /\
    Strings.all (fun c => negb (Ascii.eqb c "/")) rigName = true /\
    rigName <> "" /\ rigName <> "." /\
    GetRig env townRoot rigName = Ok r.
Proof.
  unfold findCurrentRig. split.
  - intros H.
    destruct (Getwd env) as [cwd|e] eqn:Hcwd; [|discriminate H].
    cbn [wrap mbind result_bind] in H.
    destruct (Rel env townRoot cwd) as [relPath|e] eqn:Hrel; [|discriminate H].
    cbn [wrap mbind result_bind] in H.
    destruct (Strings.Split relPath "/") as [|p ps] eqn:Hs; [discriminate H|].
    destruct (String.eqb p "" || String.eqb p ".") eqn:Hp; [discriminate H|].
    apply orb_false_elim in Hp as [Hp1 Hp2].
    apply String.eqb_neq in Hp1, Hp2.
    destruct (GetRig env townRoot p) as [r'|e] eqn:Hg; [|discriminate H].
    cbn [wrap mbind result_bind] in H. inversion H; subst p r'.
    destruct (Split_head _ _ _ _ Hs) as [Hall Hform].
    exists cwd, relPath.
    split; [reflexivity|]. split; [first [exact Hrel | reflexivity]|].
    split; [exact Hform|]. split; [exact Hall|].
    split; [exact Hp1|]. split; [exact Hp2 | exact Hg].
  - intros (cwd & relPath & Hcwd & Hrel & Hform & Hall & Hne & Hdot & Hg).
    rewrite Hcwd. cbn [wrap mbind result_bind].
    rewrite Hrel. cbn [wrap mbind result_bind].
    destruct (Split_first "/" rigName relPath Hall Hform) as [ps ->].
    apply String.eqb_neq in Hne, Hdot. rewrite Hne, Hdot. cbn [orb].
    now rewrite Hg.
Qed.

Lemma findCurrentRig_first_component_witness :
  findCurrentRig sample.env "/town" = Ok ("gastown", sample.gastown).
Proof.
  apply findCurrentRig_first_component.
  exists "/town/gastown/polecats/Toast", "gastown/polecats/Toast".
  repeat split; try reflexivity; try discriminate.
  right. exists "polecats/Toast". reflexivity.
Defined.

(** X4.  Validation is two checks.  Once workspace, rig and working
    directory are found and the branch is known, a submission whose branch
    is neither [main] nor [master] and whose issue is given by [--issue]
    or parsed from the branch is accepted: it is handed to [Create] for
    the rig found, with the issue of the flag where given (the worker
    still comes from the branch), the target [main] or
    [integration/<epic>], and the title [Merge: <issue>]. *)
Theorem submit_accepts {S : Type} (bd : beads.Beads S) (env : Env)
    (flags : SubmitFlags) (st : S) (townRoot rigName cwd branch : string)
    (rg : rig.Rig) :
  FindFromCwdOrError env = Ok townRoot ->
  findCurrentRig env townRoot = Ok (rigName, rg) ->
  Getwd env = Ok cwd ->
  (mqSubmitBranch flags = branch /\ branch <> "") \/
  (mqSubmitBranch flags = "" /\ CurrentBranch env cwd = Ok branch) ->
  branch <> "main" -> branch <> "master" ->
  mqSubmitIssue flags <> "" \/ Issue (parseBranchName branch) <> "" ->
  exists r,
    mqSubmitRequest bd env flags st = Ok r /\
    sr_cwd r = cwd /\ sr_branch r = branch /\ sr_rig r = rigName /\
    sr_worker r = Worker (parseBranchName branch) /\
    sr_issue r = (if String.eqb (mqSubmitIssue flags) ""
                  then Issue (parseBranchName branch) else mqSubmitIssue flags) /\
    sr_target r = (if String.eqb (mqSubmitEpic flags) "" then "main"
                   else "integration/" +:+ mqSubmitEpic flags) /\
    beads.co_Title (sr_opts r) = "Merge: " +:+ sr_issue r /\
    state (runMqSubmit bd env flags st) = snd (beads.Create bd cwd st (sr_opts r)).
Proof.
  intros Htown Hrig Hcwd Hbranch Hmain Hmaster Hissue.
  assert (Hb : (if String.eqb (mqSubmitBranch flags) ""
                then wrap "getting current branch" (CurrentBranch env cwd)
                else Ok (mqSubmitBranch flags)) = Ok branch).
  { destruct Hbranch as [[Hf Hne]|[Hf Hcur]].
    - apply String.eqb_neq in Hne. now rewrite Hf, Hne.
    - now rewrite Hf, Hcur. }
  assert (Hi : String.eqb (if String.eqb (mqSubmitIssue flags) ""
                           then Issue (parseBranchName branch)
                           else mqSubmitIssue flags) "" = false).
  { apply String.eqb_neq.
    destruct (String.eqb (mqSubmitIssue flags) "") eqn:E.
    - apply String.eqb_eq in E. destruct Hissue; congruence.
    - now apply String.eqb_neq in E. }
  assert (Hreq : exists r, mqSubmitRequest bd env flags st = Ok r).
  { unfold mqSubmitRequest.
    rewrite Htown. cbn [wrap mbind result_bind]. rewrite Hrig.
    cbn [mbind result_bind]. rewrite Hcwd. cbn [wrap mbind result_bind].
    rewrite Hb. cbn [mbind result_bind].
    apply String.eqb_neq in Hmain, Hmaster. rewrite Hmain, Hmaster.
    cbn [orb]. rewrite Hi. eauto. }
  destruct Hreq as [r Hr]. exists r. split; [exact Hr|].
  pose proof (runMqSubmit_creates bd env flags st r Hr) as [Hst _].
  apply mqSubmitRequest_inv in Hr
    as (townRoot' & rigName' & rg' & cwd' & branch' & Htown' & Hrig' & Hcwd' & Hb'
        & _ & _ & _ & ->).
  rewrite Htown in Htown'. inversion Htown'; subst townRoot'.
  rewrite Hrig in Hrig'. inversion Hrig'; subst rigName' rg'.
  rewrite Hcwd in Hcwd'. inversion Hcwd'; subst cwd'.
  assert (branch' = branch).
  { destruct Hb' as [[Hf' Hne']|[Hf' Hcur']]; destruct Hbranch as [[Hf Hne]|[Hf Hcur]];
      congruence. }
  subst branch'. cbn [sr_cwd sr_branch sr_rig sr_worker sr_issue sr_target sr_opts
                      beads.co_Title] in *.
  repeat split; try reflexivity. exact Hst.
Qed.

Lemma submit_accepts_witness :
  exists r,
    mqSubmitRequest memstore.bd (sample.env_on "hotfix") (mkSubmitFlags "" "gt-7" "" 0)
      sample.empty_store = Ok r /\
    sr_issue r = "gt-7" /\ sr_worker r = "" /\ sr_target r = "main".
Proof.
  destruct (submit_accepts memstore.bd (sample.env_on "hotfix")
              (mkSubmitFlags "" "gt-7" "" 0) sample.empty_store
              "/town" "gastown" "/town/gastown/polecats/Toast" "hotfix" sample.gastown
              eq_refl eq_refl eq_refl (or_intror (conj eq_refl eq_refl)))
    as (r & Hr & _ & _ & _ & Hw & Hi & Ht & _).
  - discriminate.
  - discriminate.
  - left. discriminate.
  - exists r. split; [exact Hr|]. split; [exact Hi|]. split; [exact Hw | exact Ht].
Defined.

(** X5.  What a submission asks of the store before it creates the
    issue is the source issue, by [Show], and only without a priority
    override: with [--priority p], [p >= 0], the request is the same over
    any two stores in any two states, and otherwise over any two that
    answer [Show] alike.  In particular no existing merge request of the
    same branch or issue is looked for. *)
Theorem submit_reads_only_show {S S' : Type} (bd : beads.Beads S)
    (bd' : beads.Beads S') (env : Env) (flags : SubmitFlags) (st : S) (st' : S') :
  0 <= mqSubmitPriority flags \/
  (forall dir id, beads.Show bd dir st id = beads.Show bd' dir st' id) ->
  mqSubmitRequest bd env flags st = mqSubmitRequest bd' env flags st'.
Proof.
  intros H. unfold mqSubmitRequest.
  destruct (FindFromCwdOrError env) as [townRoot|e]; [|reflexivity].
  cbn [wrap mbind result_bind].
  destruct (findCurrentRig env townRoot) as [[rigName rg]|e]; [|reflexivity].
  cbn [mbind result_bind].
  destruct (Getwd env) as [cwd|e]; [|reflexivity].
  cbn [wrap mbind result_bind].
  match goal with
  | |- mbind _ ?m = _ => destruct m as [branch|e]
  end; [|reflexivity].
  cbn [mbind result_bind].
  destruct (String.eqb branch "main" || String.eqb branch "master"); [reflexivity|].
  match goal with
  | |- (if String.eqb ?i "" then _ else _) = _ => destruct (String.eqb i "")
  end; [reflexivity|].
  destruct H as [Hp | Hshow].
  - apply Z.leb_le in Hp. now rewrite Hp.
  - now rewrite Hshow.
Qed.

Lemma submit_reads_only_show_witness :
  mqSubmitRequest memstore.bd sample.env (mkSubmitFlags "" "" "" 1) sample.empty_store =
  mqSubmitRequest memstore.bd sample.env (mkSubmitFlags "" "" "" 1) sample.store_with_source.
Proof.
  apply submit_reads_only_show. left. cbn. discriminate.
Defined.

(** ** The list view, stage by stage *)

Section ListStages.

Context {S : Type}.
Variable bd : beads.Beads S.
Variable env : Env.

(** [runMQList] is the query, then the filters, then the rendering. *)
Lemma runMQList_stages flags rigName st :
  runMQList bd env flags rigName st =
  (issues ← mqListQuery bd env flags rigName st;
   Ok (mqListRender env (mqListJSON flags)
         (filter (fun issue => mqListKeep env flags issue = true) issues))).
Proof.
  unfold runMQList, mqListQuery, mqListRender.
  destruct (getRefineryManager env rigName) as [r|e]; [|reflexivity].
  cbn [mbind result_bind].
  destruct (mqListReady flags).
  - destruct (beads.Ready bd (rig.Path r) st) as [allReady|e]; [|reflexivity].
    cbn [wrap mbind result_bind].
    destruct (mqListJSON flags); [reflexivity|].
    now destruct (filter _ _).
  - match goal with
    | |- context [beads.List bd ?b st ?o] => destruct (beads.List bd b st o) as [issues|e]
    end; [|reflexivity].
    cbn [wrap mbind result_bind].
    destruct (mqListJSON flags); [reflexivity|].
    now destruct (filter _ _).
Qed.

End ListStages.

(** The store in memory honours the type its [List] is asked for. *)
Lemma memstore_honours_type : List_honours_type memstore.bd.
Proof.
  intros dir st o issues issue H Hty Hin.
  cbn in H. unfold memstore.List in H. inversion H; subst issues.
  apply list_elem_of_In, filter_In in Hin as [_ Hsel].
  unfold memstore.selected in Hsel.
  apply andb_prop in Hsel as [Hsel _]. apply orb_prop in Hsel as [Hsel|Hsel].
  - apply String.eqb_eq in Hsel. contradiction.
  - now apply String.eqb_eq in Hsel.
Qed.

(** X6.  With [--ready] the [--status] flag has no effect: the ready
    query is used and the list options, the only place the status goes
    to, are never sent. *)
Theorem list_ready_ignores_status {S : Type} (bd : beads.Beads S) (env : Env)
    (flags : ListFlags) (status rigName : string) (st : S) :
  mqListReady flags = true ->
  runMQList bd env
    (mkListFlags true status (mqListWorker flags) (mqListEpic flags) (mqListJSON flags))
    rigName st
  = runMQList bd env flags rigName st.
Proof.
  destruct flags as [ready s w e j]. cbn [mqListReady mqListWorker mqListEpic mqListJSON].
  intros ->. reflexivity.
Qed.

Lemma list_ready_ignores_status_witness :
  runMQList memstore.bd sample.env (mkListFlags true "closed" "" "" false)
    "gastown" sample.store_with_source
  = runMQList memstore.bd sample.env sample.list_ready "gastown" sample.store_with_source.
Proof.
  apply (list_ready_ignores_status memstore.bd sample.env sample.list_ready "closed").
  reflexivity.
Defined.

(** X8.  [--json] changes the rendering only: when the JSON view prints
    a list of issues, the table view under the same other flags prints
    one row per issue of that list, in the same order, or the empty notice
    when the list is empty. *)
Theorem list_json_same_issues {S : Type} (bd : beads.Beads S) (env : Env)
    (flags : ListFlags) (rigName : string) (st : S) (shown : list beads.Issue) :
  runMQList bd env
    (mkListFlags (mqListReady flags) (mqListStatus flags) (mqListWorker flags)
       (mqListEpic flags) true) rigName st = Ok (OutJSON shown) ->
  runMQList bd env
    (mkListFlags (mqListReady flags) (mqListStatus flags) (mqListWorker flags)
       (mqListEpic flags) false) rigName st
  = Ok (match shown with
        | [] => OutEmpty
        | _ => OutTable (map (mqRow env) shown)
        end).
Proof.
  rewrite !runMQList_stages.
  unfold mqListQuery, mqListKeep.
  cbn [mqListReady mqListStatus mqListWorker mqListEpic mqListJSON].
  match goal with
  | |- mbind _ ?m = _ -> _ => destruct m as [issues|e]
  end; [|intros H; discriminate H].
  cbn [mbind result_bind mqListRender]. intros H. inversion H. reflexivity.
Qed.

Lemma list_json_same_issues_witness :
  runMQList memstore.bd sample.env sample.list_open "gastown" sample.store_with_mr =
    Ok (OutTable [mqRow sample.env sample.counted_blocker]).
Proof.
  apply (list_json_same_issues memstore.bd sample.env sample.list_open "gastown"
           sample.store_with_mr [sample.counted_blocker]).
  reflexivity.
Defined.

(** X9.  Over a store whose [List] honours the type it is asked for,
    every issue the list query returns, in the ready mode or not, has the
    store's type [merge-request]; no accepted submission is created with
    that type. *)
Theorem list_query_native_type {S : Type} (bd : beads.Beads S) (env : Env)
    (flags : ListFlags) (rigName : string) (st : S) (issues : list beads.Issue) :
  List_honours_type bd ->
  mqListQuery bd env flags rigName st = Ok issues ->
  forall issue, issue ∈ issues ->
    beads.Type_ issue = "merge-request" /\
    forall env' sflags st' r,
      mqSubmitRequest bd env' sflags st' = Ok r ->
      beads.co_Type (sr_opts r) <> beads.Type_ issue.
Proof.
  intros Hlaw Hq issue Hin.
  assert (Hty : beads.Type_ issue = "merge-request").
  { unfold mqListQuery in Hq.
    destruct (getRefineryManager env rigName) as [r|e]; [|discriminate Hq].
    cbn [mbind result_bind] in Hq.
    destruct (mqListReady flags).
    - destruct (beads.Ready bd (rig.Path r) st) as [allReady|e]; [|discriminate Hq].
      cbn [wrap mbind result_bind] in Hq. inversion Hq; subst issues.
      apply list_elem_of_filter in Hin as [Heq _]. now apply String.eqb_eq in Heq.
    - match type of Hq with
      | wrap _ (beads.List bd ?b st ?o) = _ =>
          destruct (beads.List bd b st o) as [l|e] eqn:Hl
      end; [|discriminate Hq].
      cbn [wrap] in Hq. inversion Hq; subst l.
      apply (Hlaw _ _ _ _ issue Hl); [discriminate | assumption]. }
  split; [exact Hty|].
  intros env' sflags st' r Hr.
  apply mqSubmitRequest_inv in Hr
    as (townRoot & rigName' & rg & cwd & branch & _ & _ & _ & _ & _ & _ & _ & ->).
  rewrite Hty. discriminate.
Qed.

Lemma list_query_native_type_witness :
  beads.Type_ sample.counted_blocker = "merge-request".
Proof.
  refine (proj1 (list_query_native_type memstore.bd sample.env sample.list_open
                   "gastown" sample.store_with_mr [sample.counted_blocker]
                   memstore_honours_type eq_refl sample.counted_blocker _)).
  apply list_elem_of_here.
Defined.

(** ** The rows of the table *)

Section Rows.

Lemma substring_0_length n s :
  String.length (String.substring 0 n s) = Nat.min n (String.length s).
Proof.
  revert s; induction n as [|n IH]; intros [|c s]; simpl; try reflexivity.
  now rewrite IH.
Qed.

Lemma substring_0_prefix n s : String.prefix (String.substring 0 n s) s = true.
Proof.
  revert s; induction n as [|n IH]; intros [|c s]; simpl; try reflexivity.
  destruct (ascii_dec c c); [apply IH | congruence].
Qed.

Lemma prefix_refl s : String.prefix s s = true.
Proof.
  induction s as [|c s IH]; simpl; [reflexivity|].
  destruct (ascii_dec c c); [assumption | congruence].
Qed.

Lemma displayStatus_blocked_iff issue :
  displayStatus issue = "blocked" <->
  beads.Status issue = "blocked" \/
  (beads.Status issue = "open" /\
   (beads.BlockedBy issue <> [] \/ 0 < beads.BlockedByCount issue)).
Proof.
  unfold displayStatus.
  destruct (String.eqb (beads.Status issue) "open") eqn:E.
  - apply String.eqb_eq in E.
    destruct (beads.BlockedBy issue) as [|b bs]; cbn [length Nat.ltb Nat.leb orb].
    + destruct (0 <? beads.BlockedByCount issue) eqn:Hc.
      * apply Z.ltb_lt in Hc. split; auto.
      * apply Z.ltb_ge in Hc. split; [discriminate|].
        intros [H|[_ [H|H]]]; [congruence | congruence | lia].
    + split; [|reflexivity]. intros _. right. split; [assumption|]. left. discriminate.
  - apply String.eqb_neq in E. split; [auto|].
    intros [H|[H _]]; [assumption | contradiction].
Qed.

End Rows.

(** X10.  The identifier column of a row is the first 12 bytes of the
    issue's identifier, the whole of it when it is shorter, and the branch
    column never exceeds 30 bytes. *)
Theorem mqRow_widths (env : Env) (issue : beads.Issue) :
  String.length (row_id (mqRow env issue)) =
    Nat.min 12 (String.length (beads.ID issue)) /\
  String.prefix (row_id (mqRow env issue)) (beads.ID issue) = true /\
  (String.length (row_branch (mqRow env issue)) <= 30)%nat.
Proof.
  unfold mqRow. cbn [row_id row_branch]. split; [|split].
  - destruct (12 <? String.length (beads.ID issue))%nat eqn:E.
    + apply Nat.ltb_lt in E. rewrite substring_0_length. lia.
    + apply Nat.ltb_ge in E. lia.
  - destruct (12 <? String.length (beads.ID issue))%nat.
    + apply substring_0_prefix.
    + apply prefix_refl.
  - match goal with
    | |- context [(30 <? String.length ?b)%nat] =>
        destruct (30 <? String.length b)%nat eqn:E
    end.
    + apply Nat.ltb_lt in E.
      rewrite length_append, substring_0_length.
      change (String.length "...") with 3%nat. lia.
    + now apply Nat.ltb_ge in E.
Qed.

(** X11.  A row carries a waiting-on line exactly when the issue's
    stored status is open or blocked and its blocker list is non-empty,
    and the line names the first blocker; an issue blocked by its blocker
    count alone has none. *)
Theorem mqRow_waiting (env : Env) (issue : beads.Issue) (b : string) :
  row_waiting (mqRow env issue) = Some b <->
  head (beads.BlockedBy issue) = Some b /\
  (beads.Status issue = "open" \/ beads.Status issue = "blocked").
Proof.
  unfold mqRow. cbn [row_waiting].
  destruct (String.eqb (displayStatus issue) "blocked") eqn:E.
  - apply String.eqb_eq, displayStatus_blocked_iff in E.
    split; [|tauto]. intros H. split; [assumption|]. tauto.
  - apply String.eqb_neq in E. split; [discriminate|].
    intros [Hh Hs]. exfalso. apply E, displayStatus_blocked_iff.
    destruct Hs as [Hs|Hs]; [|now left].
    right. split; [assumption|]. left.
    destruct (beads.BlockedBy issue); [discriminate Hh | discriminate].
Qed.

(** X12.  The status column never reads [open]: an open issue is shown
    as ready or blocked.  It reads [ready] exactly when the stored status
    is open with an empty blocker list and no positive blocker count, or
    is [ready] itself. *)
Theorem mqRow_status_ready (env : Env) (issue : beads.Issue) :
  row_status (mqRow env issue) <> "open" /\
  (row_status (mqRow env issue) = "ready" <->
   beads.Status issue = "ready" \/
   (beads.Status issue = "open" /\ beads.BlockedBy issue = [] /\
    beads.BlockedByCount issue <= 0)).
Proof.
  unfold mqRow. cbn [row_status]. unfold displayStatus.
  destruct (String.eqb (beads.Status issue) "open") eqn:E.
  - apply String.eqb_eq in E.
    destruct (beads.BlockedBy issue) as [|b0 bs]; cbn [length Nat.ltb Nat.leb orb].
    + destruct (0 <? beads.BlockedByCount issue) eqn:Hc.
      * apply Z.ltb_lt in Hc. split; [discriminate|]. split; [discriminate|].
        intros [H|(_ & _ & H)]; [congruence | lia].
      * apply Z.ltb_ge in Hc. split; [discriminate|]. split; auto.
    + split; [discriminate|]. split; [discriminate|].
      intros [H|(_ & H & _)]; [congruence | discriminate].
  - apply String.eqb_neq in E. split; [assumption|]. split; [auto|].
    intros [H|[H _]]; [assumption | contradiction].
Qed.

(** ** Retry and reject over any manager *)

(** X13.  Over any manager, [runMQRetry] succeeds exactly when the
    manager lookup, [GetMR] and [Retry] all succeed.  [Retry] is attempted
    only after [GetMR] found the merge request: when the lookup or [GetMR]
    fails the state is untouched and nothing is printed, and otherwise the
    state is the one [Retry] leaves.  The command over the manager
    modelled here is an instance. *)
Theorem retry_command_outcome {M : Type} (mgr : Manager M) (env : Env)
    (flags : RetryFlags) (rigName mrID : string) (st : M) :
  (failure (runMQRetry_on mgr env flags rigName mrID st) = None <->
   is_ok (getRefineryManager env rigName) = true /\
   is_ok (mgr_GetMR mgr st mrID) = true /\
   is_ok (fst (mgr_Retry mgr st mrID (mqRetryNow flags))) = true) /\
  (is_ok (getRefineryManager env rigName) = false \/
   is_ok (mgr_GetMR mgr st mrID) = false ->
   state (runMQRetry_on mgr env flags rigName mrID st) = st /\
   stdout (runMQRetry_on mgr env flags rigName mrID st) = []) /\
  (is_ok (getRefineryManager env rigName) = true ->
   is_ok (mgr_GetMR mgr st mrID) = true ->
   state (runMQRetry_on mgr env flags rigName mrID st) =
     snd (mgr_Retry mgr st mrID (mqRetryNow flags))) /\
  (forall process send notice s,
     runMQRetry env process flags rigName mrID s =
     runMQRetry_on (modelled_manager process send notice) env flags rigName mrID s).
Proof.
  split; [|split; [|split]].
  - unfold runMQRetry_on.
    destruct (getRefineryManager env rigName) as [r|e0]; cbn [is_ok failure].
    2:{ split; [discriminate | intros (H & _); discriminate H]. }
    destruct (mgr_GetMR mgr st mrID) as [mr|e1]; cbn [is_ok failure].
    2:{ split; [destruct e1; discriminate | intros (_ & H & _); discriminate H]. }
    destruct (mgr_Retry mgr st mrID (mqRetryNow flags)) as [[u|e2] st'];
      cbn [fst is_ok failure].
    + split; auto.
    + split; [destruct e2; discriminate | intros (_ & _ & H); discriminate H].
  - unfold runMQRetry_on.
    destruct (getRefineryManager env rigName) as [r|e0]; cbn [is_ok state stdout];
      [|auto].
    destruct (mgr_GetMR mgr st mrID) as [mr|e1]; cbn [is_ok state stdout].
    + intros [H|H]; discriminate H.
    + intros _. destruct e1; auto.
  - unfold runMQRetry_on.
    destruct (getRefineryManager env rigName) as [r|e0]; cbn [is_ok];
      [|intros H; discriminate H].
    destruct (mgr_GetMR mgr st mrID) as [mr|e1]; cbn [is_ok];
      [|intros _ H; discriminate H].
    intros _ _.
    destruct (mgr_Retry mgr st mrID (mqRetryNow flags)) as [[u|e2] st'];
      cbn [snd]; [reflexivity|]. destruct e2; reflexivity.
  - intros process send notice s. reflexivity.
Qed.

Lemma retry_command_outcome_witness :
  let o := runMQRetry sample.env sample.process_ok (mkRetryFlags false)
             "gastown" "gt-mr-9" sample.manager in
  state o = sample.manager /\ stdout o = [].
Proof.
  cbv zeta.
  destruct (retry_command_outcome
              (modelled_manager sample.process_ok sample.send_down sample.notice)
              sample.env (mkRetryFlags false) "gastown" "gt-mr-9" sample.manager)
    as (_ & Hfail & _ & Hinst).
  rewrite (Hinst sample.process_ok sample.send_down sample.notice sample.manager).
  apply Hfail. right. reflexivity.
Defined.

(** X14.  Over any manager, [runMQReject] succeeds exactly when the
    manager lookup and [RejectMR] succeed; every error of [RejectMR], the
    not-found sentinel included, is reported wrapped as [rejecting MR];
    and after a success the line telling that the worker was notified is
    printed exactly when [--notify] was given, whatever became of the
    mail. *)
Theorem reject_command_outcome {M : Type} (mgr : Manager M) (env : Env)
    (flags : RejectFlags) (rigName key : string) (st : M) (r : rig.Rig) :
  getRefineryManager env rigName = Ok r ->
  state (runMQReject_on mgr env flags rigName key st) =
    snd (mgr_RejectMR mgr st key (mqRejectReason flags) (mqRejectNotify flags)) /\
  (forall e,
     fst (mgr_RejectMR mgr st key (mqRejectReason flags) (mqRejectNotify flags)) = Err e ->
     failure (runMQReject_on mgr env flags rigName key st) = Some (Wrapf "rejecting MR" e) /\
     stdout (runMQReject_on mgr env flags rigName key st) = []) /\
  (forall result,
     fst (mgr_RejectMR mgr st key (mqRejectReason flags) (mqRejectNotify flags)) = Ok result ->
     failure (runMQReject_on mgr env flags rigName key st) = None /\
     ("  Worker notified via mail" ∈ stdout (runMQReject_on mgr env flags rigName key st)
      <-> mqRejectNotify flags = true)) /\
  (forall send notice s,
     runMQReject env send notice flags rigName key s =
     runMQReject_on (modelled_manager (fun st _ => (Ok tt, st)) send notice)
       env flags rigName key s).
Proof.
  intros Hmgr.
  assert (Hinst : forall send notice s,
            runMQReject env send notice flags rigName key s =
            runMQReject_on (modelled_manager (fun st _ => (Ok tt, st)) send notice)
              env flags rigName key s) by reflexivity.
  unfold runMQReject_on at 1 2 3 4 5. rewrite Hmgr.
  destruct (mgr_RejectMR mgr st key (mqRejectReason flags) (mqRejectNotify flags))
    as [[result|e] st']; cbn [fst snd failure state stdout].
  - split; [reflexivity|]. split; [intros e H; discriminate H|].
    split; [|exact Hinst].
    intros result' H. inversion H; subst result'. split; [reflexivity|].
    destruct (mqRejectNotify flags).
    + split; [reflexivity|]. intros _.
      rewrite !elem_of_app. right. right. apply list_elem_of_here.
    + split; [|discriminate]. intros H1. exfalso.
      destruct (String.eqb (refinery.IssueID result) "");
        rewrite !elem_of_app, ?elem_of_cons, ?elem_of_nil in H1;
        intuition discriminate.
  - split; [reflexivity|].
    split; [|split; [intros result H; discriminate H | exact Hinst]].
    intros e' H. inversion H; subst e'. auto.
Qed.

Lemma reject_command_outcome_witness :
  let o := runMQReject sample.env sample.send_down sample.notice
             (mkRejectFlags "Superseded" true) "gastown" "gt-mr-2" sample.manager in
  failure o = None /\
  "  Worker notified via mail" ∈ stdout o /\
  refinery.reported (state o) = [External "mail transport unavailable"].
Proof.
  cbv zeta.
  destruct (reject_command_outcome
              (modelled_manager (fun st _ => (Ok tt, st)) sample.send_down sample.notice)
              sample.env (mkRejectFlags "Superseded" true) "gastown" "gt-mr-2"
              sample.manager sample.gastown eq_refl)
    as (_ & _ & Hok & Hinst).
  rewrite (Hinst sample.send_down sample.notice sample.manager).
  destruct (Hok (refinery.reject "Superseded" sample.fresh_mr)) as [Hf Hn].
  { vm_compute. reflexivity. }
  split; [exact Hf|]. split; [now apply Hn|].
  vm_compute. reflexivity.
Defined.

Lemma mqRow_waiting_witness :
  row_waiting
    (mqRow sample.env
       (beads.mkIssue "gt-mr-003" "Merge: gt-def" "merge-request" "open" 1 ""
          ["gt-mr-001"; "gt-mr-002"] 0 "2025-01-01T00:00:00Z"))
  = Some "gt-mr-001".
Proof.
  apply mqRow_waiting. split; [reflexivity | left; reflexivity].
Defined.

Lemma mqRow_status_ready_witness :
  row_status
    (mqRow sample.env
       (beads.mkIssue "gt-1" "Merge: gt-42" "task" "open" 2 "" [] 0
          "2025-01-01T00:00:00Z"))
  = "ready".
Proof.
  apply (proj2 (mqRow_status_ready sample.env _)).
  right. split; [reflexivity|]. split; [reflexivity | cbn; lia].
Defined.

(** ** Submission with an explicit branch *)

(** X15.  With [--branch] given, git is not asked for the current
    branch: the request is the same whatever [CurrentBranch] would
    answer, for instance when it would fail. *)
Theorem submit_branch_flag_skips_git {S : Type} (bd : beads.Beads S) (env : Env)
    (flags : SubmitFlags) (st : S) (git : string -> result string) :
  mqSubmitBranch flags <> "" ->
  mqSubmitRequest bd
    (mkEnv (FindFromCwdOrError env) (Getwd env) (Rel env) (GetRig env) git
       (getRefineryManager env) (formatMRAge env) (EqualFold env)) flags st
  = mqSubmitRequest bd env flags st.
Proof.
  intros Hb. apply String.eqb_neq in Hb.
  destruct env as [find wd rel getrig cur mgr age fold].
  unfold mqSubmitRequest, findCurrentRig.
  cbn [FindFromCwdOrError Getwd Rel GetRig CurrentBranch getRefineryManager
       formatMRAge EqualFold].
  now rewrite Hb.
Qed.

Lemma submit_branch_flag_skips_git_witness :
  mqSubmitRequest memstore.bd
    (mkEnv (FindFromCwdOrError sample.env) (Getwd sample.env) (Rel sample.env)
       (GetRig sample.env) (fun _ => Err (External "not a git repository"))
       (getRefineryManager sample.env) (formatMRAge sample.env)
       (EqualFold sample.env))
    (mkSubmitFlags "polecat/Nux/gt-xyz" "" "" (-1)) sample.empty_store
  = mqSubmitRequest memstore.bd sample.env
      (mkSubmitFlags "polecat/Nux/gt-xyz" "" "" (-1)) sample.empty_store.
Proof.
  apply submit_branch_flag_skips_git. discriminate.
Defined.
